(** * Tic-tac-toe with move history: the game state machine of [src/index.js]

    The development embeds the logic of the React [Game] component
    (constructor, [handleClick], [jumpTo], the status computed by [render])
    and of the helper [calculateWinner], and proves the properties of the
    history / time-travel state machine.

    JavaScript data is modelled as the code has it: a square holds [null],
    ['X'] or ['O'], and reading outside an array yields [undefined]; arrays
    grow when written past their end; a write at a key that is not an array
    index lands in the object's own properties, which [slice] does not copy. *)

From Stdlib Require Import ZArith String.
From stdpp Require Import gmap strings list pretty.

Local Open Scope Z_scope.

(** ** JavaScript values held by a square *)

Inductive value : Type :=
| VNull
| VUndefined
| VStr (s : string).

#[global] Instance value_eq_dec : EqDecision value.
Proof. solve_decision. Defined.

(** Truthiness as used by [if (v)] and [a || b]: [null], [undefined] and the
    empty string are falsy, every other string is truthy. *)
Definition truthy (v : value) : bool :=
  match v with
  | VStr EmptyString => false
  | VStr _ => true
  | VNull | VUndefined => false
  end.

(** [v === w] on these values. *)
Definition strict_eq (v w : value) : bool := bool_decide (v = w).

(** String coercion of [v + ' ...']. *)
Definition to_string (v : value) : string :=
  match v with
  | VNull => "null"
  | VUndefined => "undefined"
  | VStr s => s
  end.

(** ** JavaScript arrays of squares

    [elems] are the indexed elements (a hole reads as [undefined] and is
    stored as [VUndefined]); [props] are the own properties whose integer key
    is not an array index (negative, or at least 2^32 - 1). *)

Record jsarray : Type := JSArray {
  elems : list value;
  props : gmap Z value;
}.

Definition is_index (i : Z) : bool := (0 <=? i) && (i <? 2 ^ 32 - 1).

(** [a[i]] *)
Definition arr_get (a : jsarray) (i : Z) : value :=
  if is_index i
  then default VUndefined (elems a !! Z.to_nat i)
  else default VUndefined (props a !! i).

(** [a[i] = v]: in range replaces, past the end extends the array (the gap
    reads as [undefined]), a key that is no index becomes a property. *)
Definition arr_set (a : jsarray) (i : Z) (v : value) : jsarray :=
  if is_index i then
    if i <? Z.of_nat (length (elems a))
    then JSArray (<[Z.to_nat i := v]> (elems a)) (props a)
    else JSArray (elems a
                    ++ replicate (Z.to_nat i - length (elems a))%nat VUndefined
                    ++ [v])
                 (props a)
  else JSArray (elems a) (<[i := v]> (props a)).

(** [a.slice()]: a fresh array with the indexed elements only. *)
Definition arr_slice (a : jsarray) : jsarray := JSArray (elems a) ∅.

(** [Array(n).fill(v)] *)
Definition Array_fill (n : nat) (v : value) : jsarray :=
  JSArray (replicate n v) ∅.

(** ** Game state *)

Record snapshot : Type := Snapshot { squares : jsarray }.

Record state : Type := State {
  history : list snapshot;
  stepNumber : Z;
  xIsNext : bool;
}.

(** [l[i]] on the history array; [None] stands for [undefined]. *)
Definition nthZ {A : Type} (l : list A) (i : Z) : option A :=
  if 0 <=? i then l !! Z.to_nat i else None.

(** [l.slice(0, e)]: a negative [e] counts from the end. *)
Definition slice_to {A : Type} (l : list A) (e : Z) : list A :=
  let len := Z.of_nat (length l) in
  let k := if e <? 0 then Z.max (len + e) 0 else Z.min e len in
  take (Z.to_nat k) l.

(** The constructor's [this.state]. *)
Definition initial : state :=
  State [Snapshot (Array_fill 9 VNull)] 0 true.

(** ** calculateWinner *)

Definition lines : list (Z * Z * Z) :=
  [ (0, 1, 2);
    (3, 4, 5);
    (6, 7, 8);
    (0, 3, 6);
    (1, 4, 7);
    (2, 5, 8);
    (0, 4, 8);
    (2, 4, 6) ].

(** The test of the loop body on one line. *)
Definition line_matches (sq : jsarray) (l : Z * Z * Z) : bool :=
  let '(a, b, c) := l in
  truthy (arr_get sq a)
  && strict_eq (arr_get sq a) (arr_get sq b)
  && strict_eq (arr_get sq a) (arr_get sq c).

(** The [for] loop from index [i] on, as a recursion over the remaining lines. *)
Fixpoint calculateWinner_from (ls : list (Z * Z * Z)) (sq : jsarray) : value :=
  match ls with
  | [] => VNull
  | (a, b, c) :: rest =>
      if line_matches sq (a, b, c) then arr_get sq a
      else calculateWinner_from rest sq
  end.

Definition calculateWinner (sq : jsarray) : value :=
  calculateWinner_from lines sq.

(** ** Game.handleClick and Game.jumpTo

    [None] is the [TypeError] thrown by [current.squares] when [current] is
    [undefined]; [Some st] is the component state after the handler ran (the
    early [return] leaves it as it was). *)

Definition nextMark (st : state) : value :=
  if xIsNext st then VStr "X" else VStr "O".

Definition handleClick (i : Z) (st : state) : option state :=
  let history := slice_to (history st) (stepNumber st + 1) in
  match nthZ history (Z.of_nat (length history) - 1) with
  | None => None
  | Some current =>
      let squares := arr_slice (squares current) in
      if truthy (calculateWinner squares) || truthy (arr_get squares i)
      then Some st
      else
        let squares := arr_set squares i (nextMark st) in
        Some (State (history ++ [Snapshot squares])
                    (Z.of_nat (length history))
                    (negb (xIsNext st)))
  end.

(** [step % 2] is JavaScript's remainder: its sign follows the dividend. *)
Definition jumpTo (step : Z) (st : state) : state :=
  State (history st) step (Z.rem step 2 =? 0).

(** ** The status line of Game.render *)

Definition Won (m : string) : string := m +:+ " wins!!!".
Definition InProgress (m : string) : string := m +:+ "'s turn!".

(** [history[stepNumber]], the board on display. *)
Definition currentBoard (st : state) : option jsarray :=
  squares <$> nthZ (history st) (stepNumber st).

Definition status (st : state) : option string :=
  match nthZ (history st) (stepNumber st) with
  | None => None
  | Some current =>
      let winner := calculateWinner (squares current) in
      if truthy winner
      then Some (Won (to_string winner))
      else Some (InProgress (if xIsNext st then "X" else "O"))
  end.

(** ** Reachable states

    The states the game goes through when driven as the board and the move
    list drive it: clicks on the cells 0..8 and jumps to listed moves. *)

Inductive reachable : state -> Prop :=
| reach_init : reachable initial
| reach_click st i st' :
    reachable st -> 0 <= i <= 8 -> handleClick i st = Some st' -> reachable st'
| reach_jump st step :
    reachable st ->
    0 <= step <= Z.of_nat (length (history st)) - 1 ->
    reachable (jumpTo step st).

(** A run of clicks, each handled before the next; it stops at the first
    [TypeError]. *)
Definition play (moves : list Z) (st : state) : option state :=
  foldl (fun acc i => acc ≫= handleClick i) (Some st) moves.

(** ** Boards, lines and the invariant of reachable states *)

Definition emptyBoard : jsarray := Array_fill 9 VNull.

Definition is_cell (v : value) : Prop :=
  v = VNull \/ v = VStr "X" \/ v = VStr "O".

(** A board as the game builds them: nine squares, each [null], ['X'] or
    ['O'], and no stray property. *)
Record board_ok (a : jsarray) : Prop := BoardOk {
  ok_length : length (elems a) = 9%nat;
  ok_props : props a = ∅;
  ok_cells : Forall is_cell (elems a);
}.

(** The mark of the player to move at step [n]. *)
Definition markAt (n : Z) : value :=
  if Z.even n then VStr "X" else VStr "O".

(** [b'] is [b] with one empty square [i] of the board filled by [v]. *)
Definition fills (b b' : jsarray) (i : Z) (v : value) : Prop :=
  0 <= i <= 8
  /\ arr_get b i = VNull
  /\ b' = JSArray (<[Z.to_nat i := v]> (elems b)) ∅.

Record inv (st : state) : Prop := Inv {
  inv_step : 0 <= stepNumber st < Z.of_nat (length (history st));
  inv_turn : xIsNext st = Z.even (stepNumber st);
  inv_first : history st !! 0%nat = Some (Snapshot emptyBoard);
  inv_boards : Forall (fun s => board_ok (squares s)) (history st);
  inv_moves : forall (n : nat) (s s' : snapshot),
      history st !! n = Some s -> history st !! S n = Some s' ->
      exists i, fills (squares s) (squares s') i (markAt (Z.of_nat n));
}.

(** The state after an accepted click on square [i] of board [cur]. *)
Definition played (st : state) (cur : snapshot) (i : Z) : state :=
  State (take (S (Z.to_nat (stepNumber st))) (history st)
           ++ [Snapshot (JSArray (<[Z.to_nat i := markAt (stepNumber st)]>
                                    (elems (squares cur))) ∅)])
        (stepNumber st + 1)
        (negb (xIsNext st)).

(** The lines name array indices, and cells of the board. *)
Definition line_indices (l : Z * Z * Z) : Prop :=
  let '(a, b, c) := l in
  is_index a = true /\ is_index b = true /\ is_index c = true.

Definition line_cells (l : Z * Z * Z) : Prop :=
  let '(a, b, c) := l in 0 <= a <= 8 /\ 0 <= b <= 8 /\ 0 <= c <= 8.

(** Line [l] holds three equal marks on [sq]. *)
Definition line_wins (sq : jsarray) (l : Z * Z * Z) : Prop :=
  let '(a, b, c) := l in
  truthy (arr_get sq a) = true
  /\ arr_get sq a = arr_get sq b
  /\ arr_get sq a = arr_get sq c.

(** The same on a board of cells, where non-empty means not [null]. *)
Definition line_full (sq : jsarray) (l : Z * Z * Z) : Prop :=
  let '(a, b, c) := l in
  arr_get sq a <> VNull
  /\ arr_get sq a = arr_get sq b
  /\ arr_get sq a = arr_get sq c.

(** ** What Game.render hands to the page

    [render] reads [history[stepNumber]] first, so it throws where [status]
    does; then it maps the history to the list of jump buttons. *)

(** One [<li key={move}><button onClick={() => this.jumpTo(move)}>]. *)
Record move_button : Type := MoveButton {
  key : nat;
  target : Z;
  desc : string;
}.

(** ['Go to move #' + move], or the start label when [move] is 0 (falsy). *)
Definition move_desc (move : nat) : string :=
  match move with
  | 0%nat => "Go to game start"
  | _ => "Go to move #" +:+ pretty move
  end.

Definition moves (st : state) : list move_button :=
  imap (fun move _ => MoveButton move (Z.of_nat move) (move_desc move))
       (history st).

(** The [Square] element: the value shown and the index its click passes on. *)
Record square_button : Type := Square {
  shown : value;
  click : Z;
}.

Definition renderSquare (sq : jsarray) (i : Z) : square_button :=
  Square (arr_get sq i) i.

(** Board.render: three rows of three squares. *)
Definition Board_render (sq : jsarray) : list (list square_button) :=
  [ [renderSquare sq 0; renderSquare sq 1; renderSquare sq 2];
    [renderSquare sq 3; renderSquare sq 4; renderSquare sq 5];
    [renderSquare sq 6; renderSquare sq 7; renderSquare sq 8] ].

Record view : Type := View {
  view_board : list (list square_button);
  view_status : string;
  view_moves : list move_button;
}.

Definition render (st : state) : option view :=
  match nthZ (history st) (stepNumber st) with
  | None => None
  | Some current =>
      let winner := calculateWinner (squares current) in
      let moves := moves st in
      let status :=
        if truthy winner
        then Won (to_string winner)
        else InProgress (if xIsNext st then "X" else "O") in
      Some (View (Board_render (squares current)) status moves)
  end.

(** The handlers a rendered page can call: a click on a square, a click on
    a jump button. *)
Inductive event : Type :=
| Click (i : Z)
| Jump (step : Z).

Definition events (v : view) : list event :=
  (Click ∘ click <$> concat (view_board v))
    ++ (Jump ∘ target <$> view_moves v).

Definition fire (ev : event) (st : state) : option state :=
  match ev with
  | Click i => handleClick i st
  | Jump step => Some (jumpTo step st)
  end.

(** The states the page can get into through what it renders. *)
Inductive ui_reachable : state -> Prop :=
| ui_init : ui_reachable initial
| ui_step st v ev st' :
    ui_reachable st -> render st = Some v -> ev ∈ events v ->
    fire ev st = Some st' -> ui_reachable st'.

(** How often the mark [m] stands on the squares of [b]. *)
Definition marks (m : value) (b : jsarray) : nat :=
  length (filter (fun v => v = m) (elems b)).

(** ** The game before time travel

    The second source file is the same component without [stepNumber]:
    [handleClick] and [render] work on the last entry of the history and
    nothing is ever cut off. *)

Module Linear.

Record state : Type := State {
  history : list snapshot;
  xIsNext : bool;
}.

Definition initial : state :=
  State [Snapshot (Array_fill 9 VNull)] true.

Definition handleClick (i : Z) (st : state) : option state :=
  let history := history st in
  match nthZ history (Z.of_nat (length history) - 1) with
  | None => None
  | Some current =>
      let squares := arr_slice (squares current) in
      if truthy (calculateWinner squares) || truthy (arr_get squares i)
      then Some st
      else
        let squares :=
          arr_set squares i (if xIsNext st then VStr "X" else VStr "O") in
        Some (State (history ++ [Snapshot squares]) (negb (xIsNext st)))
  end.

Definition status (st : state) : option string :=
  let history := history st in
  match nthZ history (Z.of_nat (length history) - 1) with
  | None => None
  | Some current =>
      let winner := calculateWinner (squares current) in
      if truthy winner
      then Some (Won (to_string winner))
      else Some (InProgress (if xIsNext st then "X" else "O"))
  end.

Definition play (moves : list Z) (st : state) : option state :=
  foldl (fun acc i => acc ≫= handleClick i) (Some st) moves.

End Linear.

(** What the earlier component keeps of a state of the later one. *)
Definition forget_step (st : state) : Linear.state :=
  Linear.State (history st) (xIsNext st).

(** ** Sample games *)

Definition board (cells : list value) : jsarray := JSArray cells ∅.

Definition mX : value := VStr "X".
Definition mO : value := VStr "O".
Definition nul : value := VNull.

(** X at 0, then O at 1. *)
Definition two_moves : state :=
  State [ Snapshot (board [nul; nul; nul; nul; nul; nul; nul; nul; nul]);
          Snapshot (board [mX; nul; nul; nul; nul; nul; nul; nul; nul]);
          Snapshot (board [mX; mO; nul; nul; nul; nul; nul; nul; nul]) ]
        2 true.

(** The same game after a jump back to the start. *)
Definition rewound : state :=
  State (history two_moves) 0 true.

(** X at 0, O at 3, X at 1, O at 4, X at 2: the top row is X's. *)
Definition top_row : jsarray :=
  board [mX; mX; mX; mO; mO; nul; nul; nul; nul].

Definition won : state :=
  State [ Snapshot (board [nul; nul; nul; nul; nul; nul; nul; nul; nul]);
          Snapshot (board [mX; nul; nul; nul; nul; nul; nul; nul; nul]);
          Snapshot (board [mX; nul; nul; mO; nul; nul; nul; nul; nul]);
          Snapshot (board [mX; mX; nul; mO; nul; nul; nul; nul; nul]);
          Snapshot (board [mX; mX; nul; mO; mO; nul; nul; nul; nul]);
          Snapshot top_row ]
        5 false.

(** Rows 0 and 1 both complete, as no game produces them. *)
Definition two_rows : jsarray :=
  board [mO; mO; mO; mX; mX; mX; nul; nul; nul].

(** * Proofs *)

Example play_center :
  (handleClick 4 initial ≫= status) = Some (InProgress "O").
Proof. vm_compute. reflexivity. Qed.

(** ** Reading and writing squares *)

Lemma is_index_cell (i : Z) : 0 <= i <= 8 -> is_index i = true.
Proof.
  intros Hi. unfold is_index.
  apply andb_true_intro; split; [apply Z.leb_le | apply Z.ltb_lt]; lia.
Qed.

Lemma arr_get_index (a : jsarray) (i : Z) :
  is_index i = true ->
  arr_get a i = default VUndefined (elems a !! Z.to_nat i).
Proof. intros Hi. unfold arr_get. rewrite Hi. reflexivity. Qed.

(** Whatever the key, the value written is the value read back. *)
Lemma arr_get_set_same (a : jsarray) (i : Z) (v : value) :
  arr_get (arr_set a i v) i = v.
Proof.
  unfold arr_get, arr_set.
  destruct (is_index i) eqn:Hi.
  - apply andb_prop in Hi as [H0 _]. apply Z.leb_le in H0.
    destruct (i <? Z.of_nat (length (elems a))) eqn:Hlt; simpl.
    + apply Z.ltb_lt in Hlt.
      rewrite list_lookup_insert_eq by lia. reflexivity.
    + apply Z.ltb_ge in Hlt.
      rewrite lookup_app_r by lia.
      rewrite lookup_app_r by (rewrite length_replicate; lia).
      rewrite length_replicate.
      replace (Z.to_nat i - length (elems a)
               - (Z.to_nat i - length (elems a)))%nat with 0%nat by lia.
      reflexivity.
  - simpl. rewrite lookup_insert_eq. reflexivity.
Qed.

(** A write leaves every other index as it was. *)
Lemma arr_get_set_other (a : jsarray) (i j : Z) (v : value) :
  is_index j = true -> i <> j ->
  (Z.to_nat j < length (elems a))%nat ->
  arr_get (arr_set a i v) j = arr_get a j.
Proof.
  intros Hj Hne Hlen. rewrite !arr_get_index by exact Hj.
  pose proof Hj as Hj'. apply andb_prop in Hj' as [Hj0 _]. apply Z.leb_le in Hj0.
  unfold arr_set. destruct (is_index i) eqn:Hi; [|reflexivity].
  apply andb_prop in Hi as [Hi0 _]. apply Z.leb_le in Hi0.
  destruct (i <? Z.of_nat (length (elems a))); simpl.
  - rewrite list_lookup_insert_ne by lia. reflexivity.
  - rewrite lookup_app_l by lia. reflexivity.
Qed.

(** ** calculateWinner reads array indices only *)

Lemma lines_indices : Forall line_indices lines.
Proof. unfold lines. repeat constructor. Qed.

Lemma calculateWinner_from_elems (ls : list (Z * Z * Z)) (sq sq' : jsarray) :
  Forall line_indices ls -> elems sq = elems sq' ->
  calculateWinner_from ls sq = calculateWinner_from ls sq'.
Proof.
  intros Hls He. induction Hls as [|[[a b] c] rest (Ha & Hb & Hc) _ IH].
  - reflexivity.
  - simpl. rewrite !arr_get_index by assumption. rewrite He, IH. reflexivity.
Qed.

Lemma calculateWinner_slice (sq : jsarray) :
  calculateWinner (arr_slice sq) = calculateWinner sq.
Proof.
  apply calculateWinner_from_elems; [apply lines_indices | reflexivity].
Qed.

(** ** Slicing the history *)

Lemma slice_to_succ {A : Type} (l : list A) (k : Z) :
  0 <= k -> slice_to l (k + 1) = take (S (Z.to_nat k)) l.
Proof.
  intros Hk. unfold slice_to.
  destruct (k + 1 <? 0) eqn:Hneg; [apply Z.ltb_lt in Hneg; lia|].
  destruct (Z.min_spec (k + 1) (Z.of_nat (length l))) as [[Hlt ->]|[Hge ->]].
  - f_equal. lia.
  - rewrite Nat2Z.id. rewrite !take_ge by lia. reflexivity.
Qed.

Lemma nthZ_nat {A : Type} (l : list A) (k : Z) :
  0 <= k -> nthZ l k = l !! Z.to_nat k.
Proof.
  intros Hk. unfold nthZ.
  destruct (0 <=? k) eqn:E; [reflexivity | apply Z.leb_gt in E; lia].
Qed.

Lemma nthZ_Some_range {A : Type} (l : list A) (k : Z) (x : A) :
  nthZ l k = Some x -> 0 <= k < Z.of_nat (length l).
Proof.
  unfold nthZ. destruct (0 <=? k) eqn:E; [|discriminate].
  apply Z.leb_le in E. intros H. apply lookup_lt_Some in H. lia.
Qed.

Lemma nthZ_out_of_range {A : Type} (l : list A) (k : Z) :
  ~ (0 <= k <= Z.of_nat (length l) - 1) -> nthZ l k = None.
Proof.
  intros Hk. unfold nthZ. destruct (0 <=? k) eqn:E; [|reflexivity].
  apply Z.leb_le in E. apply lookup_ge_None_2. lia.
Qed.

(** The handler's [current] is the snapshot at [stepNumber]. *)
Lemma handleClick_current (st : state) (cur : snapshot) :
  nthZ (history st) (stepNumber st) = Some cur ->
  let h := slice_to (history st) (stepNumber st + 1) in
  h = take (S (Z.to_nat (stepNumber st))) (history st)
  /\ Z.of_nat (length h) = stepNumber st + 1
  /\ nthZ h (Z.of_nat (length h) - 1) = Some cur.
Proof.
  intros Hcur. pose proof (nthZ_Some_range _ _ _ Hcur) as Hr.
  rewrite nthZ_nat in Hcur by lia.
  cbv zeta. rewrite slice_to_succ by lia.
  assert (Hlen : length (take (S (Z.to_nat (stepNumber st))) (history st))
                 = S (Z.to_nat (stepNumber st))).
  { rewrite length_take. lia. }
  split; [reflexivity|]. rewrite Hlen. split; [lia|].
  rewrite nthZ_nat by lia.
  replace (Z.to_nat (Z.of_nat (S (Z.to_nat (stepNumber st))) - 1))
    with (Z.to_nat (stepNumber st)) by lia.
  rewrite lookup_take_lt by lia. exact Hcur.
Qed.

(** [handleClick] with the slicing resolved. *)
Lemma handleClick_unfold (i : Z) (st : state) (cur : snapshot) :
  nthZ (history st) (stepNumber st) = Some cur ->
  handleClick i st =
    if truthy (calculateWinner (squares cur))
       || truthy (arr_get (arr_slice (squares cur)) i)
    then Some st
    else Some (State (take (S (Z.to_nat (stepNumber st))) (history st)
                        ++ [Snapshot (arr_set (arr_slice (squares cur)) i
                                              (nextMark st))])
                     (stepNumber st + 1)
                     (negb (xIsNext st))).
Proof.
  intros Hcur. destruct (handleClick_current st cur Hcur) as (Hh & Hlen & Hlast).
  unfold handleClick. rewrite Hlast, calculateWinner_slice, Hlen, Hh.
  reflexivity.
Qed.

(** ** The invariant of reachable states *)

Lemma even_rem (n : Z) : (Z.rem n 2 =? 0) = Z.even n.
Proof.
  destruct (Z.even n) eqn:E.
  - apply Z.eqb_eq. apply Z.even_spec in E as [m ->].
    rewrite Z.mul_comm. apply Z.rem_mul. lia.
  - apply Z.eqb_neq. intros H. apply Z.rem_divide in H; [|lia].
    destruct H as [m ->].
    rewrite Z.even_mul in E. rewrite orb_true_r in E. discriminate.
Qed.

Lemma truthy_cell (v : value) : is_cell v -> truthy v = false -> v = VNull.
Proof. intros [-> | [-> | ->]]; simpl; intros H; try reflexivity; discriminate. Qed.

Lemma truthy_markAt (n : Z) : truthy (markAt n) = true.
Proof. unfold markAt. destruct (Z.even n); reflexivity. Qed.

Lemma is_cell_markAt (n : Z) : is_cell (markAt n).
Proof. unfold markAt, is_cell. destruct (Z.even n); auto. Qed.

Lemma board_ok_slice (a : jsarray) : board_ok a -> arr_slice a = a.
Proof.
  intros [_ Hp _]. destruct a as [e p]. simpl in Hp. subst p. reflexivity.
Qed.

Lemma cells_get_cell (sq : jsarray) (i : Z) :
  length (elems sq) = 9%nat -> Forall is_cell (elems sq) ->
  0 <= i <= 8 -> is_cell (arr_get sq i).
Proof.
  intros Hlen Hcells Hi. rewrite arr_get_index by (apply is_index_cell; lia).
  destruct (lookup_lt_is_Some_2 (elems sq) (Z.to_nat i)) as [v Hv]; [lia|].
  rewrite Hv. simpl. eapply Forall_lookup_1; eassumption.
Qed.

Lemma board_ok_get_cell (a : jsarray) (i : Z) :
  board_ok a -> 0 <= i <= 8 -> is_cell (arr_get a i).
Proof. intros [Hlen _ Hcells]. apply cells_get_cell; assumption. Qed.

(** Outside the nine squares a game board reads [undefined]. *)
Lemma board_ok_get_outside (a : jsarray) (i : Z) :
  board_ok a -> ~ (0 <= i <= 8) -> arr_get a i = VUndefined.
Proof.
  intros [Hlen Hp _] Hi. unfold arr_get. destruct (is_index i) eqn:E.
  - apply andb_prop in E as [E0 _]. apply Z.leb_le in E0.
    rewrite lookup_ge_None_2 by lia. reflexivity.
  - rewrite Hp, lookup_empty. reflexivity.
Qed.

Lemma board_ok_set (a : jsarray) (i : Z) (v : value) :
  board_ok a -> 0 <= i <= 8 ->
  arr_set (arr_slice a) i v = JSArray (<[Z.to_nat i := v]> (elems a)) ∅.
Proof.
  intros [Hlen _ _] Hi. unfold arr_set. simpl.
  rewrite is_index_cell by lia.
  destruct (i <? Z.of_nat (length (elems a))) eqn:E; [reflexivity|].
  apply Z.ltb_ge in E. lia.
Qed.

Lemma board_ok_insert (a : jsarray) (i : nat) (v : value) :
  board_ok a -> is_cell v -> board_ok (JSArray (<[i := v]> (elems a)) ∅).
Proof.
  intros [Hlen _ Hcells] Hv. constructor; simpl.
  - rewrite length_insert. exact Hlen.
  - reflexivity.
  - apply Forall_insert; assumption.
Qed.

Lemma board_ok_empty : board_ok emptyBoard.
Proof.
  constructor; simpl; [reflexivity | reflexivity |].
  repeat constructor.
Qed.

Lemma inv_current (st : state) :
  inv st ->
  exists cur, nthZ (history st) (stepNumber st) = Some cur
              /\ history st !! Z.to_nat (stepNumber st) = Some cur
              /\ board_ok (squares cur).
Proof.
  intros I. destruct (inv_step st I) as [H0 Hlt].
  destruct (lookup_lt_is_Some_2 (history st) (Z.to_nat (stepNumber st)))
    as [cur Hcur]; [lia|].
  exists cur. rewrite nthZ_nat by lia. split; [exact Hcur|]. split; [exact Hcur|].
  exact (Forall_lookup_1 _ _ _ _ (inv_boards st I) Hcur).
Qed.

Lemma inv_initial : inv initial.
Proof.
  constructor; simpl.
  - lia.
  - reflexivity.
  - reflexivity.
  - repeat constructor; apply board_ok_empty.
  - intros n s s' _ H. destruct n; discriminate.
Qed.

Lemma inv_jumpTo (st : state) (step : Z) :
  inv st -> 0 <= step <= Z.of_nat (length (history st)) - 1 ->
  inv (jumpTo step st).
Proof.
  intros I Hstep. constructor; simpl.
  - lia.
  - apply even_rem.
  - apply (inv_first st I).
  - apply (inv_boards st I).
  - apply (inv_moves st I).
Qed.

Lemma nextMark_markAt (st : state) : inv st -> nextMark st = markAt (stepNumber st).
Proof. intros I. unfold nextMark, markAt. rewrite (inv_turn st I). reflexivity. Qed.

Lemma handleClick_cases (i : Z) (st : state) (cur : snapshot) :
  inv st -> 0 <= i <= 8 ->
  nthZ (history st) (stepNumber st) = Some cur ->
  handleClick i st =
    if truthy (calculateWinner (squares cur)) || truthy (arr_get (squares cur) i)
    then Some st else Some (played st cur i).
Proof.
  intros I Hi Hcur. rewrite (handleClick_unfold i st cur Hcur).
  assert (Hok : board_ok (squares cur)).
  { destruct (inv_current st I) as (c & Hc & _ & Hok). congruence. }
  rewrite board_ok_set by assumption.
  rewrite (board_ok_slice _ Hok), (nextMark_markAt st I). reflexivity.
Qed.

Lemma inv_played (st : state) (cur : snapshot) (i : Z) :
  inv st -> 0 <= i <= 8 ->
  nthZ (history st) (stepNumber st) = Some cur ->
  truthy (arr_get (squares cur) i) = false ->
  inv (played st cur i).
Proof.
  intros I Hi Hcur Hfree.
  destruct (inv_step st I) as [H0 Hlt].
  destruct (inv_current st I) as (c & Hc & Hlk & Hok).
  assert (c = cur) by congruence. subst c.
  assert (Hlen : length (take (S (Z.to_nat (stepNumber st))) (history st))
                 = S (Z.to_nat (stepNumber st))).
  { rewrite length_take. lia. }
  constructor; simpl.
  - rewrite length_app, Hlen. simpl. lia.
  - rewrite (inv_turn st I). replace (stepNumber st + 1) with (Z.succ (stepNumber st)) by lia.
    rewrite Z.even_succ, <- Z.negb_even. reflexivity.
  - rewrite lookup_app_l by lia. rewrite lookup_take_lt by lia.
    apply (inv_first st I).
  - apply Forall_app. split.
    + apply Forall_take. apply (inv_boards st I).
    + constructor; [|constructor]. simpl.
      apply board_ok_insert; [exact Hok | apply is_cell_markAt].
  - intros n s s' Hs Hs'.
    destruct (decide (S n < S (Z.to_nat (stepNumber st)))%nat) as [Hn|Hn].
    + rewrite lookup_app_l in Hs by lia. rewrite lookup_app_l in Hs' by lia.
      rewrite lookup_take_lt in Hs by lia. rewrite lookup_take_lt in Hs' by lia.
      eapply (inv_moves st I); eassumption.
    + assert (Hlt' : (S n < length (take (S (Z.to_nat (stepNumber st))) (history st)
                                 ++ [Snapshot (JSArray (<[Z.to_nat i := markAt (stepNumber st)]>
                                    (elems (squares cur))) ∅)]))%nat).
      { apply lookup_lt_Some in Hs'. exact Hs'. }
      rewrite length_app, Hlen in Hlt'. simpl in Hlt'.
      assert (n = Z.to_nat (stepNumber st)) by lia. subst n.
      rewrite lookup_app_l in Hs by lia. rewrite lookup_take_lt in Hs by lia.
      rewrite lookup_app_r in Hs' by lia. rewrite Hlen, Nat.sub_diag in Hs'.
      simpl in Hs'. injection Hs' as <-.
      assert (s = cur) by congruence. subst s.
      exists i. rewrite Z2Nat.id by lia. split; [exact Hi|]. split; [|reflexivity].
      apply truthy_cell; [apply board_ok_get_cell; assumption | exact Hfree].
Qed.

Lemma inv_handleClick (i : Z) (st st' : state) :
  inv st -> 0 <= i <= 8 -> handleClick i st = Some st' -> inv st'.
Proof.
  intros I Hi H. destruct (inv_current st I) as (cur & Hcur & _ & _).
  rewrite (handleClick_cases i st cur I Hi Hcur) in H.
  destruct (truthy (calculateWinner (squares cur))) eqn:Hw; simpl in H.
  - injection H as <-. exact I.
  - destruct (truthy (arr_get (squares cur) i)) eqn:Hc; injection H as <-.
    + exact I.
    + apply inv_played; assumption.
Qed.

Lemma reachable_inv (st : state) : reachable st -> inv st.
Proof.
  induction 1 as [|st i st' _ IH Hi Hc|st step _ IH Hs].
  - apply inv_initial.
  - eapply inv_handleClick; eassumption.
  - apply inv_jumpTo; assumption.
Qed.

(** ** The winner is decided by the first matching line *)

Lemma line_matches_wins (sq : jsarray) (l : Z * Z * Z) :
  line_matches sq l = true <-> line_wins sq l.
Proof.
  destruct l as [[a b] c]. unfold line_matches, line_wins, strict_eq.
  rewrite !andb_true_iff, !bool_decide_eq_true. tauto.
Qed.

Lemma calculateWinner_from_first (ls : list (Z * Z * Z)) (sq : jsarray) :
  (exists pre a b c post,
      ls = pre ++ (a, b, c) :: post
      /\ Forall (fun l => ~ line_wins sq l) pre
      /\ line_wins sq (a, b, c)
      /\ calculateWinner_from ls sq = arr_get sq a)
  \/ (Forall (fun l => ~ line_wins sq l) ls
      /\ calculateWinner_from ls sq = VNull).
Proof.
  induction ls as [|[[a b] c] rest IH].
  - right. split; [constructor | reflexivity].
  - cbn [calculateWinner_from].
    destruct (line_matches sq (a, b, c)) eqn:Hm.
    + left. exists [], a, b, c, rest. split; [reflexivity|].
      split; [constructor|]. split; [|reflexivity].
      apply line_matches_wins. exact Hm.
    + assert (Hno : ~ line_wins sq (a, b, c)).
      { intros Hw. apply line_matches_wins in Hw. congruence. }
      destruct IH as [(pre & a' & b' & c' & post & -> & Hpre & Hw & Hres)
                     |[Hall Hres]].
      * left. exists ((a, b, c) :: pre), a', b', c', post.
        split; [reflexivity|]. split; [constructor; assumption|].
        split; assumption.
      * right. split; [constructor; assumption | exact Hres].
Qed.

(** A result other than [null] is a truthy square. *)
Lemma calculateWinner_truthy (sq : jsarray) :
  calculateWinner sq <> VNull -> truthy (calculateWinner sq) = true.
Proof.
  intros Hne. unfold calculateWinner in *.
  destruct (calculateWinner_from_first lines sq)
    as [(pre & a & b & c & post & _ & _ & (Ht & _) & Hres)|[_ Hres]].
  - rewrite Hres. exact Ht.
  - contradiction.
Qed.

Lemma lines_cells : Forall line_cells lines.
Proof. unfold lines, line_cells. repeat constructor; lia. Qed.

(** On a game board the winner is [null], ['X'] or ['O']. *)
Lemma calculateWinner_cell (sq : jsarray) :
  board_ok sq -> is_cell (calculateWinner sq).
Proof.
  intros Hok. unfold calculateWinner.
  destruct (calculateWinner_from_first lines sq)
    as [(pre & a & b & c & post & Hl & _ & _ & ->)|[_ ->]].
  - apply board_ok_get_cell; [exact Hok|].
    pose proof lines_cells as Hc. rewrite Hl in Hc.
    apply Forall_app in Hc as [_ Hc]. apply Forall_cons in Hc as [Hc _].
    apply Hc.
  - left. reflexivity.
Qed.

Lemma calculateWinner_empty : calculateWinner emptyBoard = VNull.
Proof. reflexivity. Qed.

(** Rows 0 and 1 complete at once: the row listed first decides; so does
    column 0 over the diagonal 2,4,6. *)
Example calculateWinner_two_lines :
  calculateWinner two_rows = mO
  /\ calculateWinner (board [mX; nul; mO; mX; mO; nul; mX; nul; mO]) = mX.
Proof. split; reflexivity. Qed.

Lemma truthy_cell_iff (v : value) : is_cell v -> truthy v = true <-> v <> VNull.
Proof. intros [-> | [-> | ->]]; simpl; split; intros H; congruence. Qed.

Lemma line_full_wins (sq : jsarray) (l : Z * Z * Z) :
  length (elems sq) = 9%nat -> Forall is_cell (elems sq) -> line_cells l ->
  line_full sq l <-> line_wins sq l.
Proof.
  intros Hlen Hcells. destruct l as [[a b] c]. intros (Ha & _ & _).
  unfold line_full, line_wins.
  rewrite (truthy_cell_iff _ (cells_get_cell sq a Hlen Hcells Ha)). tauto.
Qed.

Lemma Forall_not_full (sq : jsarray) (ls : list (Z * Z * Z)) :
  length (elems sq) = 9%nat -> Forall is_cell (elems sq) ->
  Forall line_cells ls ->
  Forall (fun l => ~ line_wins sq l) ls ->
  Forall (fun l => ~ line_full sq l) ls.
Proof.
  intros Hlen Hcells Hls Hno. induction Hls as [|l rest Hl _ IH].
  - constructor.
  - apply Forall_cons in Hno as [Hno Hrest]. constructor; [|apply IH, Hrest].
    intros Hf. apply Hno. apply (line_full_wins sq l Hlen Hcells Hl). exact Hf.
Qed.

(** C2. On a board of nine cells, [calculateWinner] goes through the eight
    lines in the order [0,1,2] [3,4,5] [6,7,8] [0,3,6] [1,4,7] [2,5,8]
    [0,4,8] [2,4,6] and returns the mark [board[a]] of the first line
    [a,b,c] with [board[a]] non-empty and equal to [board[b]] and
    [board[c]]: every line listed before it fails that test, so with several
    complete lines the first listed decides.  When no line passes, it
    returns [null]. *)
Theorem calculateWinner_first_line (sq : jsarray) :
  length (elems sq) = 9%nat ->
  Forall is_cell (elems sq) ->
  lines = [ (0, 1, 2); (3, 4, 5); (6, 7, 8);
            (0, 3, 6); (1, 4, 7); (2, 5, 8);
            (0, 4, 8); (2, 4, 6) ]
  /\ ((exists pre a b c post,
          lines = pre ++ (a, b, c) :: post
          /\ Forall (fun l => ~ line_full sq l) pre
          /\ line_full sq (a, b, c)
          /\ calculateWinner sq = arr_get sq a
          /\ (calculateWinner sq = VStr "X" \/ calculateWinner sq = VStr "O"))
      \/ (Forall (fun l => ~ line_full sq l) lines
          /\ calculateWinner sq = VNull)).
Proof.
  intros Hlen Hcells. split; [reflexivity|].
  pose proof lines_cells as Hlc. unfold calculateWinner.
  destruct (calculateWinner_from_first lines sq)
    as [(pre & a & b & c & post & Hl & Hpre & Hw & Hres)|[Hall Hres]].
  - left. exists pre, a, b, c, post.
    rewrite Hl in Hlc. apply Forall_app in Hlc as [Hpc Hlc].
    apply Forall_cons in Hlc as [Hc _].
    split; [exact Hl|].
    split; [apply Forall_not_full; assumption|].
    split; [apply line_full_wins; assumption|].
    split; [exact Hres|].
    rewrite Hres. destruct Hw as [Ht _]. destruct Hc as [Ha _].
    destruct (cells_get_cell sq a Hlen Hcells Ha) as [E | [E | E]];
      rewrite E in *; [discriminate | left | right]; reflexivity.
  - right. split; [|exact Hres]. apply Forall_not_full; assumption.
Qed.

(** With rows 0 and 1 both complete, the first listed line decides. *)
Lemma calculateWinner_first_line_two_rows :
  length (elems two_rows) = 9%nat
  /\ Forall is_cell (elems two_rows)
  /\ ~ line_full two_rows (0, 4, 8)
  /\ line_full two_rows (3, 4, 5)
  /\ calculateWinner two_rows = arr_get two_rows 0.
Proof.
  assert (Hlen : length (elems two_rows) = 9%nat) by reflexivity.
  assert (Hcells : Forall is_cell (elems two_rows)).
  { unfold two_rows, board, elems.
    repeat (apply List.Forall_cons;
            [first [left; reflexivity
                   | right; left; reflexivity
                   | right; right; reflexivity]|]).
    apply List.Forall_nil. }
  split; [exact Hlen|]. split; [exact Hcells|].
  split; [intros (_ & H & _); vm_compute in H; discriminate H|].
  split; [repeat split; vm_compute; discriminate|].
  destruct (calculateWinner_first_line two_rows Hlen Hcells)
    as [_ [(pre & a & b & c & post & _ & _ & _ & _ & [H | H]) | [_ H]]];
    vm_compute in H; try discriminate H.
  reflexivity.
Defined.

(** ** Runs of clicks and the sample games *)

Lemma reachable_play (moves : list Z) (st st' : state) :
  reachable st -> Forall (fun i => 0 <= i <= 8) moves ->
  play moves st = Some st' -> reachable st'.
Proof.
  unfold play. intros Hreach. revert st'.
  induction moves as [|i rest IH] using rev_ind; intros st' Hmoves Hplay.
  - simpl in Hplay. injection Hplay as <-. exact Hreach.
  - apply Forall_app in Hmoves as [Hrest Hi]. apply Forall_cons in Hi as [Hi _].
    rewrite foldl_app in Hplay. cbn [foldl] in Hplay.
    destruct (foldl (fun acc j => acc ≫= handleClick j) (Some st) rest)
      as [mid|] eqn:Hmid; [|discriminate].
    cbn [mbind option_bind] in Hplay.
    eapply reach_click; [apply IH; [exact Hrest | reflexivity] | exact Hi | exact Hplay].
Qed.

Lemma reachable_two_moves : reachable two_moves.
Proof.
  apply (reachable_play [0; 1] initial); [constructor | | vm_compute; reflexivity].
  repeat (constructor; [lia|]). constructor.
Qed.

Lemma reachable_rewound : reachable rewound.
Proof.
  change rewound with (jumpTo 0 two_moves).
  apply reach_jump; [exact reachable_two_moves | simpl; lia].
Qed.

Lemma reachable_won : reachable won.
Proof.
  apply (reachable_play [0; 3; 1; 4; 2] initial);
    [constructor | | vm_compute; reflexivity].
  repeat (constructor; [lia|]). constructor.
Qed.

(** ** Moves *)

Lemma currentBoard_Some (st : state) (cur : jsarray) :
  currentBoard st = Some cur ->
  exists s, nthZ (history st) (stepNumber st) = Some s /\ squares s = cur.
Proof.
  unfold currentBoard. destruct (nthZ (history st) (stepNumber st)) as [s|];
    simpl; [|discriminate].
  intros [= <-]. exists s. split; reflexivity.
Qed.

Lemma length_played (st : state) (cur : snapshot) (i : Z) :
  0 <= stepNumber st < Z.of_nat (length (history st)) ->
  Z.of_nat (length (history (played st cur i))) = stepNumber st + 2.
Proof.
  intros Hr. unfold played. cbn [history].
  rewrite length_app, length_take. cbn [length]. lia.
Qed.

(** C1. In a reachable state, a click on a cell 0..8 that is empty on the
    board at [stepNumber], when that board has no winner, is accepted: the
    history becomes its first [stepNumber + 1] entries followed by one new
    snapshot, which is the current board with the clicked cell set to ['X']
    when [stepNumber] is even and to ['O'] otherwise; [stepNumber] becomes the
    index of that last snapshot.  In particular, after [jumpTo(step)] with
    [step < history.length - 1], the history has [step + 2] entries. *)
Theorem handleClick_accepts (st : state) (i : Z) (cur : jsarray) :
  reachable st ->
  0 <= i <= 8 ->
  currentBoard st = Some cur ->
  calculateWinner cur = VNull ->
  arr_get cur i = VNull ->
  exists st',
    handleClick i st = Some st'
    /\ history st' =
         take (Z.to_nat (stepNumber st) + 1) (history st)
           ++ [Snapshot (JSArray (<[Z.to_nat i :=
                                      if Z.even (stepNumber st)
                                      then VStr "X" else VStr "O"]>
                                    (elems cur)) ∅)]
    /\ stepNumber st' = Z.of_nat (length (history st')) - 1
    /\ (forall st0 step,
           reachable st0 ->
           0 <= step < Z.of_nat (length (history st0)) - 1 ->
           st = jumpTo step st0 ->
           Z.of_nat (length (history st')) = step + 2).
Proof.
  intros Hreach Hi Hcur Hwin Hcell.
  pose proof (reachable_inv st Hreach) as I.
  destruct (currentBoard_Some st cur Hcur) as (s & Hs & <-).
  exists (played st s i).
  rewrite (handleClick_cases i st s I Hi Hs), Hwin, Hcell.
  cbn [truthy orb].
  pose proof (length_played st s i (inv_step st I)) as Hlen.
  split; [reflexivity|]. split.
  { rewrite Nat.add_1_r. reflexivity. }
  split.
  { rewrite Hlen. cbn [played stepNumber]. lia. }
  intros st0 step _ Hstep ->. exact Hlen.
Qed.

(** A move after a jump back to the start of a two-move game. *)
Lemma handleClick_accepts_rewound :
  reachable rewound
  /\ currentBoard rewound = Some emptyBoard
  /\ exists st',
       handleClick 4 rewound = Some st'
       /\ history st' =
            [Snapshot emptyBoard;
             Snapshot (board [nul; nul; nul; nul; mX; nul; nul; nul; nul])]
       /\ stepNumber st' = 1
       /\ Z.of_nat (length (history st')) = 0 + 2.
Proof.
  split; [exact reachable_rewound|]. split; [reflexivity|].
  destruct (handleClick_accepts rewound 4 emptyBoard reachable_rewound
              ltac:(lia) eq_refl eq_refl eq_refl)
    as (st' & Hclick & Hhist & Hstep & Hjump).
  exists st'. split; [exact Hclick|]. split; [exact Hhist|].
  split; [rewrite Hstep, Hhist; reflexivity|].
  apply (Hjump two_moves 0 reachable_two_moves); [simpl; lia | reflexivity].
Defined.

(** C3. In a reachable state, a click on a cell 0..8 is rejected when the
    board at [stepNumber] has a winner or the clicked cell is not empty: the
    handler returns early and the state (history, its length, [stepNumber],
    the turn flag) is exactly the state before the call. *)
Theorem handleClick_rejects (st : state) (i : Z) (cur : jsarray) :
  reachable st ->
  0 <= i <= 8 ->
  currentBoard st = Some cur ->
  calculateWinner cur <> VNull \/ arr_get cur i <> VNull ->
  handleClick i st = Some st.
Proof.
  intros Hreach Hi Hcur Hrej.
  pose proof (reachable_inv st Hreach) as I.
  destruct (currentBoard_Some st cur Hcur) as (s & Hs & <-).
  rewrite (handleClick_cases i st s I Hi Hs).
  destruct Hrej as [Hw|Hc].
  - rewrite (calculateWinner_truthy _ Hw). reflexivity.
  - destruct (truthy (arr_get (squares s) i)) eqn:Ht.
    + rewrite orb_true_r. reflexivity.
    + exfalso. apply Hc. apply truthy_cell; [|exact Ht].
      apply board_ok_get_cell; [|exact Hi].
      destruct (inv_current st I) as (c & Hc' & _ & Hok). congruence.
Qed.

(** Once the top row is X's, a click on the empty cell 8 changes nothing, and
    neither does a click on the taken cell 0 earlier in the game. *)
Lemma handleClick_rejects_won :
  handleClick 8 won = Some won /\ handleClick 0 two_moves = Some two_moves.
Proof.
  split.
  - apply (handleClick_rejects won 8 top_row reachable_won);
      [lia | reflexivity | left; discriminate].
  - apply (handleClick_rejects two_moves 0
             (board [mX; mO; nul; nul; nul; nul; nul; nul; nul])
             reachable_two_moves);
      [lia | reflexivity | right; discriminate].
Defined.

(** ** Jumps *)

(** C4 fails on the code: [jumpTo] has no range check.  Jumping to -1 or to
    [history.length] from the initial state is not refused and moves
    [stepNumber] there. *)
Lemma jumpTo_out_of_range_moves :
  reachable initial
  /\ ~ (0 <= -1 <= Z.of_nat (length (history initial)) - 1)
  /\ stepNumber (jumpTo (-1) initial) = -1
  /\ stepNumber (jumpTo (-1) initial) <> stepNumber initial
  /\ ~ (0 <= 1 <= Z.of_nat (length (history initial)) - 1)
  /\ stepNumber (jumpTo 1 initial) = 1
  /\ stepNumber (jumpTo 1 initial) <> stepNumber initial.
Proof.
  split; [constructor|]. simpl. repeat split; lia.
Qed.

(** C4, amended. [jumpTo] does not validate its argument: for a step
    outside [0, history.length - 1] no error is raised, [stepNumber] becomes
    that step as given (it is not clamped), the turn flag becomes
    [step % 2 === 0] and the history is unchanged; [stepNumber] then indexes
    no snapshot, so there is no board on display and no status.  This holds
    in every state, reachable or not. *)
Theorem jumpTo_unchecked (st : state) (step : Z) :
  ~ (0 <= step <= Z.of_nat (length (history st)) - 1) ->
  stepNumber (jumpTo step st) = step
  /\ history (jumpTo step st) = history st
  /\ xIsNext (jumpTo step st) = Z.even step
  /\ currentBoard (jumpTo step st) = None
  /\ status (jumpTo step st) = None.
Proof.
  intros Hout. split; [reflexivity|]. split; [reflexivity|].
  split; [apply even_rem|].
  unfold currentBoard, status. cbn [jumpTo history stepNumber].
  rewrite (nthZ_out_of_range _ _ Hout). split; reflexivity.
Qed.

Lemma jumpTo_unchecked_initial :
  stepNumber (jumpTo (-1) initial) = -1
  /\ history (jumpTo (-1) initial) = history initial
  /\ xIsNext (jumpTo (-1) initial) = Z.even (-1)
  /\ currentBoard (jumpTo (-1) initial) = None
  /\ status (jumpTo (-1) initial) = None.
Proof. apply (jumpTo_unchecked initial (-1)). simpl. lia. Defined.

Lemma status_in_progress (st : state) (cur : snapshot) :
  nthZ (history st) (stepNumber st) = Some cur ->
  calculateWinner (squares cur) = VNull ->
  status st = Some (InProgress (if xIsNext st then "X" else "O")).
Proof. intros Hcur Hw. unfold status. rewrite Hcur, Hw. reflexivity. Qed.

(** C5. In a reachable state, [jumpTo(step)] with
    [0 <= step <= history.length - 1] sets [stepNumber] to [step] and leaves
    the history as it is; the mark to play next is ['X'] for an even step and
    ['O'] for an odd one.  After [jumpTo(0)] the board on display is the
    all-empty board and the status is X's turn, the history being kept
    whole. *)
Theorem jumpTo_in_range (st : state) (step : Z) :
  reachable st ->
  0 <= step <= Z.of_nat (length (history st)) - 1 ->
  stepNumber (jumpTo step st) = step
  /\ history (jumpTo step st) = history st
  /\ (Z.even step = true -> nextMark (jumpTo step st) = VStr "X")
  /\ (Z.odd step = true -> nextMark (jumpTo step st) = VStr "O")
  /\ currentBoard (jumpTo 0 st) = Some emptyBoard
  /\ status (jumpTo 0 st) = Some (InProgress "X")
  /\ history (jumpTo 0 st) = history st.
Proof.
  intros Hreach Hstep. pose proof (reachable_inv st Hreach) as I.
  split; [reflexivity|]. split; [reflexivity|].
  unfold nextMark. cbn [jumpTo xIsNext]. rewrite even_rem.
  split; [intros ->; reflexivity|].
  split; [rewrite <- Z.negb_even; intros H; apply negb_true_iff in H;
          rewrite H; reflexivity|].
  assert (H0 : nthZ (history (jumpTo 0 st)) (stepNumber (jumpTo 0 st))
               = Some (Snapshot emptyBoard)).
  { cbn [jumpTo history stepNumber]. rewrite nthZ_nat by lia.
    apply (inv_first st I). }
  split; [unfold currentBoard; rewrite H0; reflexivity|].
  split; [|reflexivity].
  rewrite (status_in_progress _ _ H0 calculateWinner_empty). reflexivity.
Qed.

Lemma jumpTo_in_range_two_moves :
  stepNumber (jumpTo 1 two_moves) = 1
  /\ history (jumpTo 1 two_moves) = history two_moves
  /\ nextMark (jumpTo 1 two_moves) = VStr "O"
  /\ currentBoard (jumpTo 0 two_moves) = Some emptyBoard
  /\ status (jumpTo 0 two_moves) = Some (InProgress "X").
Proof.
  destruct (jumpTo_in_range two_moves 1 reachable_two_moves)
    as (Hstep & Hhist & _ & Hodd & Hboard & Hstatus & _); [simpl; lia|].
  split; [exact Hstep|]. split; [exact Hhist|].
  split; [apply Hodd; reflexivity|]. split; [exact Hboard | exact Hstatus].
Defined.

(** ** Status *)

(** C6. In a reachable state there is a board at [stepNumber], and the
    status is "m wins" when [calculateWinner] returns a mark [m] on it, and
    otherwise the turn of ['X'] when [stepNumber] is even and of ['O'] when it
    is odd.  After one click on cell 4 from the initial state it is O's
    turn. *)
Theorem status_of_reachable (st : state) :
  reachable st ->
  (exists cur,
      currentBoard st = Some cur
      /\ ((exists m, (m = "X" \/ m = "O")
                     /\ calculateWinner cur = VStr m
                     /\ status st = Some (Won m))
          \/ (calculateWinner cur = VNull
              /\ status st =
                   Some (InProgress (if Z.even (stepNumber st)
                                     then "X" else "O")))))
  /\ (handleClick 4 initial ≫= status) = Some (InProgress "O").
Proof.
  intros Hreach. pose proof (reachable_inv st Hreach) as I.
  split; [|reflexivity].
  destruct (inv_current st I) as (cur & Hcur & _ & Hok).
  exists (squares cur). split; [unfold currentBoard; rewrite Hcur; reflexivity|].
  destruct (calculateWinner_cell _ Hok) as [Hw | [Hw | Hw]].
  - right. split; [exact Hw|].
    rewrite (status_in_progress st cur Hcur Hw), (inv_turn st I). reflexivity.
  - left. exists "X". split; [left; reflexivity|]. split; [exact Hw|].
    unfold status. rewrite Hcur, Hw. reflexivity.
  - left. exists "O". split; [right; reflexivity|]. split; [exact Hw|].
    unfold status. rewrite Hcur, Hw. reflexivity.
Qed.

Lemma status_of_reachable_won :
  reachable won /\ status won = Some (Won "X").
Proof.
  split; [exact reachable_won|].
  destruct (status_of_reachable won reachable_won)
    as [(cur & Hcur & [(m & _ & Hm & Hs) | (Hnull & _)]) _];
    change (currentBoard won) with (Some top_row) in Hcur;
    injection Hcur as <-.
  - change (calculateWinner top_row) with (VStr "X") in Hm.
    injection Hm as <-. exact Hs.
  - change (calculateWinner top_row) with (VStr "X") in Hnull.
    discriminate Hnull.
Defined.

(** ** Invariants of the history *)

Lemma fills_get (b b' : jsarray) (i : Z) (v : value) :
  board_ok b -> fills b b' i v ->
  arr_get b' i = v /\ (forall j, j <> i -> arr_get b' j = arr_get b j).
Proof.
  intros [Hlen Hp _] (Hi & _ & ->). split.
  - rewrite arr_get_index by (apply is_index_cell; lia). cbn [elems].
    rewrite list_lookup_insert_eq by lia. reflexivity.
  - intros j Hj. unfold arr_get. cbn [elems props]. rewrite Hp.
    destruct (is_index j) eqn:E; [|reflexivity].
    apply andb_prop in E as [E0 _]. apply Z.leb_le in E0.
    rewrite list_lookup_insert_ne by lia. reflexivity.
Qed.

(** C7. In a reachable state the stored turn flag agrees with the parity of
    [stepNumber]: the mark the next accepted click writes is ['X'] exactly
    when [stepNumber] is even and ['O'] exactly when it is odd.  The game
    starts at step 0 with ['X'], and along the history the move from
    snapshot [n] to snapshot [n + 1] wrote ['X'] for even [n] and ['O'] for
    odd [n]. *)
Theorem turn_follows_parity (st : state) :
  reachable st ->
  xIsNext st = Z.even (stepNumber st)
  /\ (nextMark st = VStr "X" <-> Z.even (stepNumber st) = true)
  /\ (nextMark st = VStr "O" <-> Z.odd (stepNumber st) = true)
  /\ (forall i st',
         0 <= i <= 8 -> handleClick i st = Some st' -> st' <> st ->
         exists b, currentBoard st' = Some b
                   /\ arr_get b i = nextMark st
                   /\ xIsNext st' = negb (xIsNext st))
  /\ (stepNumber initial = 0 /\ nextMark initial = VStr "X")
  /\ (forall (n : nat) s s',
         history st !! n = Some s -> history st !! S n = Some s' ->
         exists i, 0 <= i <= 8
                   /\ arr_get (squares s) i = VNull
                   /\ arr_get (squares s') i =
                        (if Nat.even n then VStr "X" else VStr "O")).
Proof.
  intros Hreach. pose proof (reachable_inv st Hreach) as I.
  split; [apply (inv_turn st I)|].
  split.
  { unfold nextMark. rewrite (inv_turn st I).
    destruct (Z.even (stepNumber st)); split; congruence. }
  split.
  { unfold nextMark. rewrite (inv_turn st I), <- Z.negb_even.
    destruct (Z.even (stepNumber st)); simpl; split; congruence. }
  split.
  { intros i st' Hi Hclick Hne.
    destruct (inv_current st I) as (cur & Hcur & _ & Hok).
    rewrite (handleClick_cases i st cur I Hi Hcur) in Hclick.
    destruct (truthy (calculateWinner (squares cur))
              || truthy (arr_get (squares cur) i)) eqn:Hrej;
      injection Hclick as <-; [contradiction|].
    apply orb_false_elim in Hrej as [_ Hfree].
    pose proof (inv_played st cur i I Hi Hcur Hfree) as I'.
    destruct (inv_current _ I') as (new & Hnew & Hlk & _).
    exists (squares new). split; [unfold currentBoard; rewrite Hnew; reflexivity|].
    split; [|reflexivity].
    destruct (inv_step st I) as [H0 Hlt].
    cbn [played history stepNumber] in Hlk.
    rewrite lookup_app_r in Hlk by (rewrite length_take; lia).
    rewrite length_take in Hlk.
    replace (Z.to_nat (stepNumber st + 1)
             - S (Z.to_nat (stepNumber st)) `min` length (history st))%nat
      with 0%nat in Hlk by lia.
    injection Hlk as <-. cbn [squares].
    rewrite arr_get_index by (apply is_index_cell; lia). cbn [elems].
    rewrite list_lookup_insert_eq by (rewrite (ok_length _ Hok); lia).
    symmetry. apply nextMark_markAt. exact I. }
  split; [split; reflexivity|].
  intros n s s' Hs Hs'.
  destruct (inv_moves st I n s s' Hs Hs') as (i & Hf).
  assert (Hok : board_ok (squares s)).
  { exact (Forall_lookup_1 _ _ _ _ (inv_boards st I) Hs). }
  destruct (fills_get _ _ _ _ Hok Hf) as [Hget _].
  destruct Hf as (Hi & Hnull & _).
  exists i. split; [exact Hi|]. split; [exact Hnull|].
  rewrite Hget. unfold markAt.
  replace (Z.even (Z.of_nat n)) with (Nat.even n); [reflexivity|].
  clear. induction n as [n IH] using (well_founded_induction lt_wf).
  destruct n as [|[|n]]; [reflexivity | reflexivity |].
  replace (Z.of_nat (S (S n))) with (Z.succ (Z.succ (Z.of_nat n))) by lia.
  rewrite Z.even_succ_succ. cbn [Nat.even]. apply IH. lia.
Qed.

Lemma turn_follows_parity_won :
  reachable won /\ stepNumber won = 5 /\ nextMark won = VStr "O".
Proof.
  split; [exact reachable_won|]. split; [reflexivity|].
  destruct (turn_follows_parity won reachable_won) as (_ & _ & Hodd & _).
  apply Hodd. reflexivity.
Defined.

(** C8. In a reachable state the first snapshot of the history is the
    all-empty board: a click keeps entry 0 (it truncates to a prefix that is
    not empty and appends at the end) and a jump keeps the history. *)
Theorem history_starts_empty (st : state) :
  reachable st ->
  history st !! 0%nat = Some (Snapshot emptyBoard)
  /\ emptyBoard = JSArray (replicate 9 VNull) ∅
  /\ (forall i st', handleClick i st = Some st' ->
                    history st' !! 0%nat = history st !! 0%nat)
  /\ (forall step, history (jumpTo step st) = history st).
Proof.
  intros Hreach. pose proof (reachable_inv st Hreach) as I.
  split; [apply (inv_first st I)|]. split; [reflexivity|].
  split; [|reflexivity].
  intros i st' Hclick.
  destruct (inv_current st I) as (cur & Hcur & _ & _).
  rewrite (handleClick_unfold i st cur Hcur) in Hclick.
  destruct (truthy (calculateWinner (squares cur))
            || truthy (arr_get (arr_slice (squares cur)) i));
    injection Hclick as <-; [reflexivity|].
  cbn [history]. destruct (inv_step st I) as [H0 Hlt].
  rewrite lookup_app_l by (rewrite length_take; lia).
  apply lookup_take_lt. lia.
Qed.

Lemma history_starts_empty_won :
  reachable won /\ history won !! 0%nat = Some (Snapshot emptyBoard).
Proof.
  split; [exact reachable_won|]. apply (history_starts_empty won reachable_won).
Defined.

Lemma history_keeps_marks (st : state) (n d : nat) (bn bm : snapshot) (p : Z) :
  inv st ->
  history st !! n = Some bn ->
  history st !! (n + d)%nat = Some bm ->
  truthy (arr_get (squares bn) p) = true ->
  arr_get (squares bm) p = arr_get (squares bn) p.
Proof.
  intros I Hn. revert bm. induction d as [|d IH]; intros bm Hm Hp.
  - rewrite Nat.add_0_r in Hm. congruence.
  - replace (n + S d)%nat with (S (n + d)) in Hm by lia.
    destruct (lookup_lt_is_Some_2 (history st) (n + d)) as [mid Hmid].
    { apply lookup_lt_Some in Hm. lia. }
    specialize (IH mid Hmid Hp).
    destruct (inv_moves st I _ _ _ Hmid Hm) as (i & Hf).
    assert (Hok : board_ok (squares mid)).
    { exact (Forall_lookup_1 _ _ _ _ (inv_boards st I) Hmid). }
    destruct (fills_get _ _ _ _ Hok Hf) as [_ Hother].
    destruct Hf as (_ & Hnull & _).
    rewrite <- IH. apply Hother. intros ->.
    rewrite IH, Hnull in *. discriminate.
Qed.

(** C9. In a reachable state occupancy is monotone along the history: a
    position holding a mark in snapshot [n] holds the same mark in every
    snapshot [m >= n].  Each snapshot differs from the one before it in
    exactly one cell, which was empty and now holds a mark.  A click either
    leaves the state alone or keeps a prefix of the history and appends one
    snapshot. *)
Theorem history_monotone (st : state) :
  reachable st ->
  (forall (n m : nat) bn bm (p : Z),
      (n <= m)%nat ->
      history st !! n = Some bn -> history st !! m = Some bm ->
      truthy (arr_get (squares bn) p) = true ->
      arr_get (squares bm) p = arr_get (squares bn) p)
  /\ (forall (n : nat) s s',
         history st !! n = Some s -> history st !! S n = Some s' ->
         exists i, 0 <= i <= 8
                   /\ arr_get (squares s) i = VNull
                   /\ truthy (arr_get (squares s') i) = true
                   /\ (forall j, j <> i ->
                                 arr_get (squares s') j = arr_get (squares s) j))
  /\ (forall i st',
         0 <= i <= 8 -> handleClick i st = Some st' ->
         st' = st
         \/ exists new,
              history st' =
                take (Z.to_nat (stepNumber st) + 1) (history st) ++ [new]).
Proof.
  intros Hreach. pose proof (reachable_inv st Hreach) as I.
  split.
  { intros n m bn bm p Hle Hn Hm Hp.
    replace m with (n + (m - n))%nat in Hm by lia.
    eapply history_keeps_marks; eassumption. }
  split.
  { intros n s s' Hs Hs'.
    destruct (inv_moves st I n s s' Hs Hs') as (i & Hf).
    assert (Hok : board_ok (squares s)).
    { exact (Forall_lookup_1 _ _ _ _ (inv_boards st I) Hs). }
    destruct (fills_get _ _ _ _ Hok Hf) as [Hget Hother].
    destruct Hf as (Hi & Hnull & _).
    exists i. split; [exact Hi|]. split; [exact Hnull|].
    split; [rewrite Hget; apply truthy_markAt | exact Hother]. }
  intros i st' Hi Hclick.
  destruct (inv_current st I) as (cur & Hcur & _ & _).
  rewrite (handleClick_cases i st cur I Hi Hcur) in Hclick.
  destruct (truthy (calculateWinner (squares cur))
            || truthy (arr_get (squares cur) i));
    injection Hclick as <-; [left; reflexivity|].
  right. eexists. cbn [played history]. rewrite Nat.add_1_r. reflexivity.
Qed.

(** The X played at cell 0 in the first move is still there after the fifth. *)
Lemma history_monotone_won :
  reachable won
  /\ arr_get top_row 0 =
       arr_get (board [mX; nul; nul; nul; nul; nul; nul; nul; nul]) 0.
Proof.
  split; [exact reachable_won|].
  destruct (history_monotone won reachable_won) as (Hmono & _ & _).
  apply (Hmono 1%nat 5%nat
           (Snapshot (board [mX; nul; nul; nul; nul; nul; nul; nul; nul]))
           (Snapshot top_row) 0);
    [lia | reflexivity | reflexivity | reflexivity].
Defined.

(** ** Clicks outside the board *)

(** C10 fails as stated: the history need not grow.  After two moves and a
    jump back to the start the history has three entries; a click at index 9
    is accepted and leaves two. *)
Lemma click_outside_after_rewind :
  play [0; 1] initial = Some two_moves
  /\ jumpTo 0 two_moves = rewound
  /\ reachable rewound
  /\ currentBoard rewound = Some emptyBoard
  /\ calculateWinner emptyBoard = VNull
  /\ length (history rewound) = 3%nat
  /\ exists st', handleClick 9 rewound = Some st'
                 /\ st' <> rewound
                 /\ length (history st') = 2%nat
                 /\ length (history st') <> S (length (history rewound)).
Proof.
  split; [vm_compute; reflexivity|]. split; [reflexivity|].
  split; [exact reachable_rewound|].
  split; [reflexivity|]. split; [reflexivity|]. split; [reflexivity|].
  eexists. split; [vm_compute; reflexivity|].
  split; [discriminate|]. split; [reflexivity|]. simpl. lia.
Qed.

(** Once a click outside the board has been accepted the boards are no
    longer the game's: index 9 is then taken and a second click there is
    refused, while a mark written at key -1 is lost by the next [slice], so
    that a second click there is accepted again. *)
Example click_outside_twice :
  (exists st', handleClick 9 initial = Some st'
               /\ st' <> initial
               /\ handleClick 9 st' = Some st')
  /\ (exists st' st'', handleClick (-1) initial = Some st'
                       /\ handleClick (-1) st' = Some st''
                       /\ length (history st'') = 3%nat).
Proof.
  split.
  - eexists. split; [vm_compute; reflexivity|].
    split; [discriminate | vm_compute; reflexivity].
  - eexists. eexists. split; [vm_compute; reflexivity|].
    split; [vm_compute; reflexivity | reflexivity].
Qed.

(** C10, amended. [handleClick] does not validate the cell index.  In a
    reachable state whose board at [stepNumber] has no winner, a click with
    an index outside 0..8 is accepted, the out-of-range square reading as
    empty: the history becomes its first [stepNumber + 1] entries followed by
    one new snapshot (so it has [stepNumber + 2] entries, one more than before
    exactly when [stepNumber] was the last index), [stepNumber] advances by
    one, the cells 0..8 of the new snapshot are those of the board clicked
    on, and the mark of the player to move is stored at the out-of-range
    position. *)
Theorem handleClick_outside (st : state) (i : Z) (cur : jsarray) :
  reachable st ->
  ~ (0 <= i <= 8) ->
  currentBoard st = Some cur ->
  calculateWinner cur = VNull ->
  arr_get cur i = VUndefined
  /\ exists st' new,
       handleClick i st = Some st'
       /\ history st' =
            take (Z.to_nat (stepNumber st) + 1) (history st) ++ [Snapshot new]
       /\ Z.of_nat (length (history st')) = stepNumber st + 2
       /\ stepNumber st' = stepNumber st + 1
       /\ currentBoard st' = Some new
       /\ (forall p, 0 <= p <= 8 -> arr_get new p = arr_get cur p)
       /\ arr_get new i = (if Z.even (stepNumber st)
                           then VStr "X" else VStr "O").
Proof.
  intros Hreach Hi Hcur Hwin.
  pose proof (reachable_inv st Hreach) as I.
  destruct (currentBoard_Some st cur Hcur) as (s & Hs & <-).
  assert (Hok : board_ok (squares s)).
  { destruct (inv_current st I) as (c & Hc & _ & Hok). congruence. }
  destruct (inv_step st I) as [H0 Hlt].
  pose proof (board_ok_get_outside _ i Hok Hi) as Hundef.
  split; [exact Hundef|].
  eexists. exists (arr_set (arr_slice (squares s)) i (nextMark st)).
  rewrite (handleClick_unfold i st s Hs), Hwin.
  rewrite (board_ok_slice _ Hok), Hundef. cbn [truthy orb].
  split; [reflexivity|]. cbn [history stepNumber].
  assert (Hlen : length (take (S (Z.to_nat (stepNumber st))) (history st))
                 = S (Z.to_nat (stepNumber st))).
  { rewrite length_take. lia. }
  split; [rewrite Nat.add_1_r; reflexivity|].
  split; [rewrite length_app, Hlen; cbn [length]; lia|].
  split; [reflexivity|].
  split.
  { unfold currentBoard. cbn [history stepNumber].
    rewrite nthZ_nat by lia. rewrite lookup_app_r by lia.
    rewrite Hlen.
    replace (Z.to_nat (stepNumber st + 1) - S (Z.to_nat (stepNumber st)))%nat
      with 0%nat by lia.
    reflexivity. }
  split.
  { intros p Hp. apply arr_get_set_other.
    - apply is_index_cell. exact Hp.
    - intros ->. contradiction.
    - rewrite (ok_length _ Hok). lia. }
  rewrite arr_get_set_same. rewrite (nextMark_markAt st I). reflexivity.
Qed.

Lemma handleClick_outside_rewound :
  reachable rewound
  /\ exists st' new,
       handleClick 9 rewound = Some st'
       /\ Z.of_nat (length (history st')) = 2
       /\ stepNumber st' = 1
       /\ currentBoard st' = Some new
       /\ arr_get new 9 = VStr "X".
Proof.
  split; [exact reachable_rewound|].
  destruct (handleClick_outside rewound 9 emptyBoard reachable_rewound)
    as (_ & st' & new & Hclick & _ & Hlen & Hstep & Hcur & _ & Hmark);
    [lia | reflexivity | reflexivity |].
  exists st', new. repeat split; assumption.
Defined.

(** * Further properties of the component *)

(** ** When the handlers throw *)

Lemma slice_to_nil_iff {A : Type} (l : list A) (e : Z) :
  slice_to l e = [] <-> l = [] \/ e = 0 \/ e + Z.of_nat (length l) <= 0.
Proof.
  unfold slice_to. destruct l as [|x l]; [rewrite take_nil; tauto|].
  cbn zeta. cbn [length].
  set (k := Z.to_nat (if e <? 0
                      then (Z.of_nat (S (length l)) + e) `max` 0
                      else e `min` Z.of_nat (S (length l)))).
  assert (Hk : k = 0%nat <-> e = 0 \/ e + Z.of_nat (S (length l)) <= 0).
  { unfold k. destruct (e <? 0) eqn:E;
      [apply Z.ltb_lt in E | apply Z.ltb_ge in E]; lia. }
  split.
  - intros H. right. apply Hk. destruct k; [reflexivity | discriminate H].
  - intros [H | H]; [discriminate H|]. apply Hk in H. rewrite H. reflexivity.
Qed.

Lemma nthZ_last_None {A : Type} (l : list A) :
  nthZ l (Z.of_nat (length l) - 1) = None <-> l = [].
Proof.
  destruct l as [|x l]; [split; reflexivity|].
  split; [|discriminate]. rewrite nthZ_nat by (cbn [length]; lia).
  intros H. apply lookup_ge_None_1 in H. cbn [length] in H. lia.
Qed.

(** X1. [handleClick] throws exactly when the slice of the history it works on
    is empty: the history itself is empty, [stepNumber] is -1, or
    [stepNumber + 1] is so negative that counting from the end leaves
    nothing.  The clicked index plays no part. *)
Theorem handleClick_throws_iff (i : Z) (st : state) :
  handleClick i st = None
  <-> history st = []
      \/ stepNumber st = -1
      \/ stepNumber st + 1 + Z.of_nat (length (history st)) <= 0.
Proof.
  unfold handleClick.
  destruct (nthZ (slice_to (history st) (stepNumber st + 1))
              (Z.of_nat (length (slice_to (history st) (stepNumber st + 1))) - 1))
    as [cur|] eqn:Hcur.
  - split.
    + destruct (truthy (calculateWinner (arr_slice (squares cur)))
                || truthy (arr_get (arr_slice (squares cur)) i)); discriminate.
    + intros H. exfalso.
      assert (Hnil : slice_to (history st) (stepNumber st + 1) = []).
      { apply slice_to_nil_iff. destruct H as [H | [H | H]]; [auto | right; left; lia | auto]. }
      rewrite Hnil in Hcur. discriminate Hcur.
  - apply nthZ_last_None in Hcur. apply slice_to_nil_iff in Hcur.
    split; [intros _|reflexivity].
    destruct Hcur as [H | [H | H]]; [auto | right; left; lia | auto].
Qed.

(** X2. In a reachable state nothing throws: every click, whatever its index,
    returns a state, and [render] returns a view whose status is the one of
    [status] and whose board shows [history[stepNumber]]. *)
Theorem reachable_no_throw (st : state) :
  reachable st ->
  (forall i : Z, exists st', handleClick i st = Some st')
  /\ exists cur v,
       currentBoard st = Some cur
       /\ render st = Some v
       /\ status st = Some (view_status v)
       /\ view_board v = Board_render cur
       /\ view_moves v = moves st.
Proof.
  intros Hreach. pose proof (reachable_inv st Hreach) as I.
  destruct (inv_current st I) as (cur & Hcur & _ & _).
  split.
  - intros i. rewrite (handleClick_unfold i st cur Hcur).
    destruct (truthy (calculateWinner (squares cur))
              || truthy (arr_get (arr_slice (squares cur)) i)); eexists; reflexivity.
  - exists (squares cur). unfold currentBoard, render, status. rewrite Hcur.
    eexists. split; [reflexivity|]. split; [reflexivity|].
    cbn [view_status view_board view_moves].
    split; [|split; reflexivity].
    destruct (truthy (calculateWinner (squares cur))); reflexivity.
Qed.

Lemma reachable_no_throw_won :
  (exists st', handleClick (-7) won = Some st')
  /\ exists v, render won = Some v /\ view_status v = Won "X".
Proof.
  destruct (reachable_no_throw won reachable_won)
    as (Hclick & cur & v & _ & Hrender & Hstatus & _).
  split; [apply Hclick|]. exists v. split; [exact Hrender|].
  change (status won) with (Some (Won "X")) in Hstatus.
  injection Hstatus as <-. reflexivity.
Defined.

(** ** A click after a jump past the end *)

Lemma slice_to_past_end {A : Type} (l : list A) (e : Z) :
  Z.of_nat (length l) <= e -> slice_to l e = l.
Proof.
  intros He. unfold slice_to.
  destruct (e <? 0) eqn:E; [apply Z.ltb_lt in E; lia|].
  apply take_ge. lia.
Qed.



(** ** Clicking twice, undoing and replaying *)

Lemma jumpTo_current (st : state) : inv st -> jumpTo (stepNumber st) st = st.
Proof.
  intros I. destruct st as [h k x]. unfold jumpTo. cbn [history stepNumber].
  rewrite even_rem. pose proof (inv_turn _ I) as Ht. cbn in Ht.
  rewrite Ht. reflexivity.
Qed.

Lemma played_current (st : state) (cur : snapshot) (i : Z) :
  inv st ->
  nthZ (history (played st cur i)) (stepNumber (played st cur i)) =
    Some (Snapshot (JSArray (<[Z.to_nat i := markAt (stepNumber st)]>
                               (elems (squares cur))) ∅)).
Proof.
  intros I. destruct (inv_step st I) as [H0 Hlt].
  cbn [played history stepNumber]. rewrite nthZ_nat by lia.
  rewrite lookup_app_r by (rewrite length_take; lia).
  rewrite length_take.
  replace (Z.to_nat (stepNumber st + 1)
           - S (Z.to_nat (stepNumber st)) `min` length (history st))%nat
    with 0%nat by lia.
  reflexivity.
Qed.

Lemma played_rejects_again (st : state) (cur : snapshot) (i : Z) :
  inv st -> 0 <= i <= 8 ->
  nthZ (history st) (stepNumber st) = Some cur ->
  truthy (arr_get (squares cur) i) = false ->
  handleClick i (played st cur i) = Some (played st cur i).
Proof.
  intros I Hi Hcur Hfree.
  pose proof (inv_played st cur i I Hi Hcur Hfree) as I'.
  rewrite (handleClick_cases i _ _ I' Hi (played_current st cur i I)).
  assert (Hok : board_ok (squares cur)).
  { destruct (inv_current st I) as (c & Hc & _ & Hok). congruence. }
  replace (truthy (arr_get _ i)) with true; [rewrite orb_true_r; reflexivity|].
  cbn [squares]. rewrite arr_get_index by (apply is_index_cell; lia).
  cbn [elems].
  rewrite list_lookup_insert_eq by (rewrite (ok_length _ Hok); lia).
  symmetry. apply truthy_markAt.
Qed.

(** X4. A second click on the same cell never does anything: whatever state a
    click on a cell 0..8 leaves, the same click on that state is refused. *)
Theorem handleClick_twice (st st' : state) (i : Z) :
  reachable st -> 0 <= i <= 8 ->
  handleClick i st = Some st' ->
  handleClick i st' = Some st'.
Proof.
  intros Hreach Hi Hclick. pose proof (reachable_inv st Hreach) as I.
  destruct (inv_current st I) as (cur & Hcur & _ & _).
  pose proof (handleClick_cases i st cur I Hi Hcur) as Hcases.
  destruct (truthy (calculateWinner (squares cur))) eqn:Hw.
  - cbn [orb] in Hcases. rewrite Hcases in Hclick. injection Hclick as <-.
    exact Hcases.
  - destruct (truthy (arr_get (squares cur) i)) eqn:Hc; cbn [orb] in Hcases;
      rewrite Hcases in Hclick; injection Hclick as <-.
    + exact Hcases.
    + apply played_rejects_again; assumption.
Qed.

Lemma handleClick_twice_initial :
  exists st', handleClick 4 initial = Some st'
              /\ st' <> initial
              /\ handleClick 4 st' = Some st'.
Proof.
  eexists. split; [vm_compute; reflexivity|]. split; [discriminate|].
  apply (handleClick_twice initial _ 4);
    [constructor | lia | vm_compute; reflexivity].
Defined.

(** X5. Undo and replay: after a click on a cell, a jump back to the step the
    click was made at shows the board, the turn and the status of before,
    and the same click made again there gives the state the first click
    gave. *)
Theorem handleClick_undo_replay (st st' : state) (i : Z) :
  reachable st -> 0 <= i <= 8 ->
  handleClick i st = Some st' ->
  currentBoard (jumpTo (stepNumber st) st') = currentBoard st
  /\ xIsNext (jumpTo (stepNumber st) st') = xIsNext st
  /\ status (jumpTo (stepNumber st) st') = status st
  /\ handleClick i (jumpTo (stepNumber st) st') = Some st'.
Proof.
  intros Hreach Hi Hclick. pose proof (reachable_inv st Hreach) as I.
  destruct (inv_current st I) as (cur & Hcur & Hlk & _).
  destruct (inv_step st I) as [H0 Hlt].
  pose proof (handleClick_cases i st cur I Hi Hcur) as Hcases.
  destruct (truthy (calculateWinner (squares cur))
            || truthy (arr_get (squares cur) i)) eqn:Hrej;
    rewrite Hcases in Hclick; injection Hclick as <-.
  { rewrite (jumpTo_current st I), Hcases. repeat split; reflexivity. }
  apply orb_false_elim in Hrej as [Hw Hfree].
  pose proof (inv_played st cur i I Hi Hcur Hfree) as I'.
  assert (Hlen : length (take (S (Z.to_nat (stepNumber st))) (history st))
                 = S (Z.to_nat (stepNumber st))).
  { rewrite length_take. lia. }
  assert (Ib : inv (jumpTo (stepNumber st) (played st cur i))).
  { apply inv_jumpTo; [exact I'|].
    cbn [played history]. rewrite length_app, Hlen. cbn [length]. lia. }
  assert (Hback : nthZ (history (jumpTo (stepNumber st) (played st cur i)))
                       (stepNumber (jumpTo (stepNumber st) (played st cur i)))
                  = Some cur).
  { cbn [jumpTo played history stepNumber]. rewrite nthZ_nat by lia.
    rewrite lookup_app_l by lia. rewrite lookup_take_lt by lia. exact Hlk. }
  assert (Hx : xIsNext (jumpTo (stepNumber st) (played st cur i)) = xIsNext st).
  { cbn [jumpTo xIsNext]. rewrite even_rem. symmetry. apply (inv_turn st I). }
  split; [unfold currentBoard; rewrite Hback, Hcur; reflexivity|].
  split; [exact Hx|].
  split; [unfold status; rewrite Hback, Hcur, Hx; reflexivity|].
  rewrite (handleClick_cases i _ cur Ib Hi Hback), Hw, Hfree. cbn [orb].
  f_equal. unfold played at 1. rewrite Hx.
  cbn [jumpTo played history stepNumber].
  rewrite take_app_length' by (symmetry; exact Hlen). reflexivity.
Qed.

Lemma handleClick_undo_replay_two_moves :
  exists st', handleClick 4 two_moves = Some st'
              /\ st' <> two_moves
              /\ currentBoard (jumpTo 2 st') = currentBoard two_moves
              /\ status (jumpTo 2 st') = Some (InProgress "X")
              /\ handleClick 4 (jumpTo 2 st') = Some st'.
Proof.
  destruct (handleClick 4 two_moves) as [st'|] eqn:Hclick;
    [|vm_compute in Hclick; discriminate Hclick].
  exists st'. split; [reflexivity|].
  destruct (handleClick_undo_replay two_moves st' 4 reachable_two_moves
              ltac:(lia) Hclick) as (Hb & _ & Hs & Hr).
  split; [intros ->; vm_compute in Hclick; discriminate Hclick|].
  split; [exact Hb|]. split; [exact Hs | exact Hr].
Defined.



(** ** Counting the marks *)

Lemma even_of_nat (n : nat) : Z.even (Z.of_nat n) = Nat.even n.
Proof.
  induction n as [n IH] using (well_founded_induction lt_wf).
  destruct n as [|[|n]]; [reflexivity | reflexivity |].
  replace (Z.of_nat (S (S n))) with (Z.succ (Z.succ (Z.of_nat n))) by lia.
  rewrite Z.even_succ_succ. cbn [Nat.even]. apply IH. lia.
Qed.

Lemma count_split (m : value) (l : list value) (i : nat) (x : value) :
  l !! i = Some x ->
  length (filter (fun v => v = m) l) =
    (length (filter (fun v => v = m) (take i l))
     + length (filter (fun v => v = m) [x])
     + length (filter (fun v => v = m) (drop (S i) l)))%nat.
Proof.
  intros Hx. rewrite <- (take_drop_middle l i x Hx) at 1.
  rewrite filter_app, length_app.
  change (x :: drop (S i) l) with ([x] ++ drop (S i) l).
  rewrite filter_app, length_app. lia.
Qed.

Lemma count_insert (m : value) (l : list value) (i : nat) (old new : value) :
  l !! i = Some old ->
  (length (filter (fun v => v = m) (<[i := new]> l))
   + length (filter (fun v => v = m) [old]))%nat =
  (length (filter (fun v => v = m) l)
   + length (filter (fun v => v = m) [new]))%nat.
Proof.
  intros Hold. pose proof (lookup_lt_Some _ _ _ Hold) as Hlt.
  rewrite (count_split m l i old Hold).
  assert (Hnew : <[i := new]> l !! i = Some new)
    by (apply list_lookup_insert_eq; exact Hlt).
  rewrite (count_split m _ i new Hnew).
  rewrite insert_take_drop by exact Hlt.
  rewrite take_app_length' by (rewrite length_take; lia).
  replace (drop (S i) (take i l ++ new :: drop (S i) l)) with (drop (S i) l).
  - lia.
  - change (new :: drop (S i) l) with ([new] ++ drop (S i) l).
    rewrite app_assoc. symmetry. apply drop_app_length'.
    rewrite length_app, length_take. cbn [length]. lia.
Qed.

Lemma count_two_le (a b : value) (l : list value) :
  a <> b ->
  (length (filter (fun v => v = a) l) + length (filter (fun v => v = b) l)
   <= length l)%nat.
Proof.
  intros Hab. induction l as [|x l IH]; [reflexivity|].
  rewrite !filter_cons. cbn [length].
  destruct (decide (x = a)) as [Ha|Ha]; destruct (decide (x = b)) as [Hb|Hb];
    cbn [length]; try lia.
  congruence.
Qed.

Lemma count_two_full (a b : value) (l : list value) :
  a <> b ->
  (length (filter (fun v => v = a) l) + length (filter (fun v => v = b) l))%nat
    = length l ->
  Forall (fun v => v = a \/ v = b) l.
Proof.
  intros Hab. induction l as [|x l IH]; intros Hfull; [constructor|].
  pose proof (count_two_le a b l Hab) as Hle.
  rewrite !filter_cons in Hfull. cbn [length] in Hfull.
  destruct (decide (x = a)) as [Ha|Ha]; destruct (decide (x = b)) as [Hb|Hb];
    cbn [length] in Hfull; try congruence; try lia.
  - constructor; [left; exact Ha | apply IH; lia].
  - constructor; [right; exact Hb | apply IH; lia].
Qed.

Lemma fills_lookup (b b' : jsarray) (i : Z) (v : value) :
  board_ok b -> fills b b' i v ->
  elems b !! Z.to_nat i = Some VNull
  /\ elems b' = <[Z.to_nat i := v]> (elems b).
Proof.
  intros Hok (Hi & Hnull & ->). split; [|reflexivity].
  rewrite arr_get_index in Hnull by (apply is_index_cell; lia).
  destruct (elems b !! Z.to_nat i) as [x|]; cbn in Hnull; congruence.
Qed.

Lemma marks_fills (m : value) (b b' : jsarray) (i : Z) (v : value) :
  board_ok b -> fills b b' i v -> m <> VNull ->
  marks m b' = (marks m b + length (filter (fun x => x = m) [v]))%nat.
Proof.
  intros Hok Hf Hm. unfold marks.
  destruct (fills_lookup b b' i v Hok Hf) as [Hold ->].
  pose proof (count_insert m _ _ _ v Hold) as Hc.
  rewrite filter_cons_False in Hc by congruence. cbn [filter length] in Hc.
  rewrite filter_nil in Hc. cbn [length] in Hc. lia.
Qed.

Lemma marks_markAt (n : nat) :
  length (filter (fun x => x = VStr "X") [markAt (Z.of_nat n)]) =
    (if Nat.even n then 1 else 0)%nat
  /\ length (filter (fun x => x = VStr "O") [markAt (Z.of_nat n)]) =
       (if Nat.even n then 0 else 1)%nat.
Proof.
  unfold markAt. rewrite even_of_nat. destruct (Nat.even n); split; reflexivity.
Qed.

Lemma inv_marks (st : state) (n : nat) (s : snapshot) :
  inv st -> history st !! n = Some s ->
  (marks (VStr "X") (squares s) + marks (VStr "O") (squares s))%nat = n
  /\ marks (VStr "X") (squares s) =
       (marks (VStr "O") (squares s) + if Nat.even n then 0 else 1)%nat.
Proof.
  intros I. revert s. induction n as [|n IH]; intros s Hs.
  - rewrite (inv_first st I) in Hs. injection Hs as <-. split; reflexivity.
  - destruct (lookup_lt_is_Some_2 (history st) n) as [s0 Hs0].
    { apply lookup_lt_Some in Hs. lia. }
    destruct (IH s0 Hs0) as [Hsum Hdiff].
    destruct (inv_moves st I n s0 s Hs0 Hs) as (i & Hf).
    assert (Hok : board_ok (squares s0)).
    { exact (Forall_lookup_1 _ _ _ _ (inv_boards st I) Hs0). }
    rewrite (marks_fills (VStr "X") _ _ _ _ Hok Hf) by discriminate.
    rewrite (marks_fills (VStr "O") _ _ _ _ Hok Hf) by discriminate.
    destruct (marks_markAt n) as [-> ->].
    rewrite Nat.even_succ, <- Nat.negb_even.
    destruct (Nat.even n); cbn [negb]; lia.
Qed.

(** X7. In a reachable history the snapshot at index [n] carries exactly [n]
    marks: as many X as O when [n] is even, one X more when [n] is odd.  So
    the history has at most ten entries and [stepNumber] is at most 9. *)
Theorem history_marks (st : state) (n : nat) (s : snapshot) :
  reachable st ->
  history st !! n = Some s ->
  (marks (VStr "X") (squares s) + marks (VStr "O") (squares s))%nat = n
  /\ marks (VStr "X") (squares s) =
       (marks (VStr "O") (squares s) + if Nat.even n then 0 else 1)%nat
  /\ (n <= 9)%nat
  /\ (length (history st) <= 10)%nat
  /\ stepNumber st <= 9.
Proof.
  intros Hreach Hs. pose proof (reachable_inv st Hreach) as I.
  assert (Hbound : forall k t, history st !! k = Some t -> (k <= 9)%nat).
  { intros k t Ht. destruct (inv_marks st k t I Ht) as [Hsum _].
    pose proof (Forall_lookup_1 _ _ _ _ (inv_boards st I) Ht) as Hok.
    pose proof (count_two_le (VStr "X") (VStr "O") (elems (squares t))
                  ltac:(discriminate)) as Hle.
    rewrite (ok_length _ Hok) in Hle. unfold marks in Hsum. lia. }
  destruct (inv_marks st n s I Hs) as [Hsum Hdiff].
  split; [exact Hsum|]. split; [exact Hdiff|].
  split; [exact (Hbound n s Hs)|].
  assert (Hlen : (length (history st) <= 10)%nat).
  { destruct (history st) as [|x h] eqn:Hh using rev_ind; [cbn; lia|].
    rewrite length_app. cbn [length].
    assert (Hl : (h ++ [x]) !! length h = Some x).
    { rewrite lookup_app_r by lia. rewrite Nat.sub_diag. reflexivity. }
    pose proof (Hbound _ _ Hl). lia. }
  split; [exact Hlen|]. destruct (inv_step st I). lia.
Qed.

Lemma history_marks_won :
  marks (VStr "X") top_row = 3%nat /\ marks (VStr "O") top_row = 2%nat.
Proof.
  destruct (history_marks won 5 (Snapshot top_row) reachable_won eq_refl)
    as (Hsum & Hdiff & _).
  cbn [squares Nat.even] in Hsum, Hdiff. lia.
Defined.

(** ** The full board *)

(** X8. After nine moves the board is full: every click on a cell is refused,
    and when nobody has won the status still announces O's turn, for the
    component knows no draw. *)
Theorem full_board (st : state) (cur : jsarray) :
  reachable st ->
  stepNumber st = 9 ->
  currentBoard st = Some cur ->
  (forall i, 0 <= i <= 8 -> truthy (arr_get cur i) = true)
  /\ (forall i, 0 <= i <= 8 -> handleClick i st = Some st)
  /\ (calculateWinner cur = VNull -> status st = Some (InProgress "O")).
Proof.
  intros Hreach Hstep Hcur. pose proof (reachable_inv st Hreach) as I.
  destruct (currentBoard_Some st cur Hcur) as (s & Hs & <-).
  destruct (inv_current st I) as (c & Hc & Hlk & Hok).
  assert (c = s) by congruence. subst c.
  rewrite Hstep in Hlk.
  destruct (inv_marks st _ s I Hlk) as [Hsum _].
  assert (Hfull : forall i, 0 <= i <= 8 -> truthy (arr_get (squares s) i) = true).
  { intros i Hi.
    pose proof (count_two_full (VStr "X") (VStr "O") (elems (squares s))
                  ltac:(discriminate)) as Hall.
    unfold marks in Hsum. rewrite (ok_length _ Hok) in Hall.
    specialize (Hall ltac:(lia)).
    rewrite arr_get_index by (apply is_index_cell; lia).
    destruct (lookup_lt_is_Some_2 (elems (squares s)) (Z.to_nat i)) as [v Hv].
    { rewrite (ok_length _ Hok). lia. }
    rewrite Hv. cbn [default].
    destruct (Forall_lookup_1 _ _ _ _ Hall Hv) as [-> | ->]; reflexivity. }
  split; [exact Hfull|]. split.
  - intros i Hi. rewrite (handleClick_cases i st s I Hi Hs), (Hfull i Hi).
    rewrite orb_true_r. reflexivity.
  - intros Hw. rewrite (status_in_progress st s Hs Hw), (inv_turn st I), Hstep.
    reflexivity.
Qed.

(** A drawn game: X O X / X O O / O X X. *)
Lemma full_board_draw :
  exists st,
    play [0; 1; 2; 4; 3; 5; 7; 6; 8] initial = Some st
    /\ stepNumber st = 9
    /\ handleClick 4 st = Some st
    /\ status st = Some (InProgress "O").
Proof.
  destruct (play [0; 1; 2; 4; 3; 5; 7; 6; 8] initial) as [st|] eqn:Hplay;
    [|vm_compute in Hplay; discriminate Hplay].
  exists st. split; [reflexivity|].
  assert (Hreach : reachable st).
  { apply (reachable_play [0; 1; 2; 4; 3; 5; 7; 6; 8] initial);
      [constructor | | exact Hplay].
    repeat (constructor; [lia|]). constructor. }
  vm_compute in Hplay. injection Hplay as <-.
  split; [reflexivity|].
  destruct (full_board _ _ Hreach eq_refl eq_refl) as (_ & Hclick & Hstatus).
  split; [apply Hclick; lia | apply Hstatus; reflexivity].
Defined.

(** ** Winning ends the branch *)

Lemma line_wins_winner (sq : jsarray) (l : Z * Z * Z) :
  l ∈ lines -> line_wins sq l -> truthy (calculateWinner sq) = true.
Proof.
  intros Hl Hw. unfold calculateWinner.
  destruct (calculateWinner_from_first lines sq)
    as [(pre & a & b & c & post & _ & _ & (Ht & _) & ->)|[Hall _]].
  - exact Ht.
  - exfalso. rewrite Forall_forall in Hall. exact (Hall l Hl Hw).
Qed.

(** Only the last snapshot of a reachable history can hold a winner. *)
Lemma reachable_no_winner_inside (st : state) :
  reachable st ->
  forall (n : nat) (s : snapshot),
    history st !! n = Some s -> (S n < length (history st))%nat ->
    calculateWinner (squares s) = VNull.
Proof.
  induction 1 as [|st i st' Hreach IH Hi Hclick|st step Hreach IH Hs];
    intros n s Hn Hlt.
  - cbn in Hlt. lia.
  - pose proof (reachable_inv st Hreach) as I.
    destruct (inv_current st I) as (cur & Hcur & Hlk & Hok).
    destruct (inv_step st I) as [H0 Hk].
    rewrite (handleClick_cases i st cur I Hi Hcur) in Hclick.
    destruct (truthy (calculateWinner (squares cur))) eqn:Hw;
      cbn [orb] in Hclick.
    { injection Hclick as <-. eapply IH; eassumption. }
    destruct (truthy (arr_get (squares cur) i)); injection Hclick as <-.
    { eapply IH; eassumption. }
    cbn [played history] in Hn, Hlt.
    rewrite length_app, length_take in Hlt. cbn [length] in Hlt.
    rewrite lookup_app_l in Hn by (rewrite length_take; lia).
    rewrite lookup_take_lt in Hn by lia.
    destruct (decide (n = Z.to_nat (stepNumber st))) as [->|Hne].
    + assert (s = cur) by congruence. subst s.
      apply truthy_cell; [apply calculateWinner_cell; exact Hok | exact Hw].
    + apply (IH n s Hn). lia.
  - apply (IH n s Hn Hlt).
Qed.

Lemma count_three (m : value) (l : list value) (a b c : nat) :
  (a < b < c)%nat ->
  l !! a = Some m -> l !! b = Some m -> l !! c = Some m ->
  (3 <= length (filter (fun v => v = m) l))%nat.
Proof.
  intros Habc Ha Hb Hc.
  rewrite (count_split m l a m Ha).
  assert (Hb' : drop (S a) l !! (b - S a)%nat = Some m).
  { rewrite lookup_drop. replace (S a + (b - S a))%nat with b by lia. exact Hb. }
  rewrite (count_split m _ _ m Hb').
  assert (Hc' : drop (S (b - S a)) (drop (S a) l) !! (c - S b)%nat = Some m).
  { rewrite !lookup_drop.
    replace (S a + (S (b - S a) + (c - S b)))%nat with c by lia. exact Hc. }
  rewrite (count_split m _ _ m Hc').
  rewrite filter_cons_True by reflexivity. cbn [filter length].
  rewrite filter_nil. cbn [length]. lia.
Qed.

Lemma lines_increasing :
  Forall (fun l : Z * Z * Z => let '(a, b, c) := l in 0 <= a < b /\ b < c) lines.
Proof. unfold lines. repeat (constructor; [lia|]). constructor. Qed.

Lemma line_wins_marks (sq : jsarray) (l : Z * Z * Z) (m : value) :
  board_ok sq -> l ∈ lines -> line_wins sq l ->
  arr_get sq (fst (fst l)) = m ->
  (3 <= marks m sq)%nat.
Proof.
  intros Hok Hl Hw Hm.
  pose proof (proj1 (Forall_forall _ _) lines_increasing l Hl) as Hinc.
  pose proof (proj1 (Forall_forall _ _) lines_cells l Hl) as Hcells.
  destruct l as [[a b] c]. cbn [fst] in Hm.
  destruct Hw as (_ & Hab & Hac). destruct Hcells as (Ha & Hb & Hc).
  assert (Hget : forall p, 0 <= p <= 8 -> arr_get sq p = m ->
                           elems sq !! Z.to_nat p = Some m).
  { intros p Hp Hpm. rewrite arr_get_index in Hpm by (apply is_index_cell; lia).
    destruct (lookup_lt_is_Some_2 (elems sq) (Z.to_nat p)) as [v Hv].
    { rewrite (ok_length _ Hok). lia. }
    rewrite Hv in Hpm. cbn in Hpm. congruence. }
  apply (count_three m (elems sq) (Z.to_nat a) (Z.to_nat b) (Z.to_nat c)).
  - lia.
  - apply Hget; assumption.
  - apply Hget; [assumption | congruence].
  - apply Hget; [assumption | congruence].
Qed.

(** X9. A snapshot with a winner is the last of its history, the winner is the
    player who made the move leading to it (X at an odd index, O at an even
    one), and it is at least the fifth move. *)
Theorem winner_moved_last (st : state) (n : nat) (s : snapshot) :
  reachable st ->
  history st !! n = Some s ->
  calculateWinner (squares s) <> VNull ->
  S n = length (history st)
  /\ calculateWinner (squares s) =
       (if Nat.even n then VStr "O" else VStr "X")
  /\ (5 <= n)%nat.
Proof.
  intros Hreach Hs Hwin. pose proof (reachable_inv st Hreach) as I.
  assert (Hlast : S n = length (history st)).
  { pose proof (lookup_lt_Some _ _ _ Hs) as Hlt.
    destruct (decide (S n < length (history st))%nat) as [Hin|Hout]; [|lia].
    exfalso. apply Hwin.
    exact (reachable_no_winner_inside st Hreach n s Hs Hin). }
  split; [exact Hlast|].
  destruct n as [|k].
  { exfalso. apply Hwin. rewrite (inv_first st I) in Hs. injection Hs as <-.
    reflexivity. }
  destruct (lookup_lt_is_Some_2 (history st) k) as [s0 Hs0]; [lia|].
  pose proof (reachable_no_winner_inside st Hreach k s0 Hs0 ltac:(lia)) as Hw0.
  destruct (inv_moves st I k s0 s Hs0 Hs) as (i & Hf).
  pose proof (Forall_lookup_1 _ _ _ _ (inv_boards st I) Hs0) as Hok0.
  pose proof (Forall_lookup_1 _ _ _ _ (inv_boards st I) Hs) as Hok.
  destruct (fills_get _ _ _ _ Hok0 Hf) as [Hnew Hother].
  unfold calculateWinner in Hwin |- *.
  destruct (calculateWinner_from_first lines (squares s))
    as [(pre & a & b & c & post & Hl & _ & Hw & Hres)|[_ Hres]];
    [|contradiction].
  assert (Hin : (a, b, c) ∈ lines).
  { rewrite Hl. apply elem_of_app. right. apply elem_of_cons. left. reflexivity. }
  assert (Hmark : arr_get (squares s) a = markAt (Z.of_nat k)).
  { destruct Hw as (Ht & Hab & Hac).
    destruct (decide (a = i)) as [->|Ha]; [exact Hnew|].
    destruct (decide (b = i)) as [->|Hb]; [congruence|].
    destruct (decide (c = i)) as [->|Hc]; [congruence|].
    exfalso.
    assert (Hw' : line_wins (squares s0) (a, b, c)).
    { cbn [line_wins]. rewrite <- !Hother by assumption. auto. }
    pose proof (line_wins_winner _ _ Hin Hw') as Ht0.
    rewrite Hw0 in Ht0. discriminate Ht0. }
  rewrite Hres, Hmark. unfold markAt. rewrite even_of_nat, Nat.even_succ,
    <- Nat.negb_even.
  split; [destruct (Nat.even k); reflexivity|].
  pose proof (line_wins_marks (squares s) (a, b, c) _ Hok Hin Hw Hmark) as H3.
  destruct (inv_marks st (S k) s I Hs) as [Hsum Hdiff].
  rewrite Nat.even_succ, <- Nat.negb_even in Hdiff.
  unfold markAt in H3. rewrite even_of_nat in H3.
  destruct (Nat.even k); cbn [negb] in Hdiff; lia.
Qed.

Lemma winner_moved_last_won :
  S 5 = length (history won)
  /\ calculateWinner top_row = VStr "X"
  /\ (5 <= 5)%nat.
Proof.
  apply (winner_moved_last won 5 (Snapshot top_row) reachable_won eq_refl).
  discriminate.
Defined.

(** ** The page and the states it can reach *)

Lemma moves_seq (st : state) :
  moves st =
    (fun move => MoveButton move (Z.of_nat move) (move_desc move))
      <$> seq 0 (length (history st)).
Proof. unfold moves. apply imap_seq_0. Qed.

Lemma board_clicks (sq : jsarray) (i : Z) :
  Click i ∈ (Click ∘ click <$> concat (Board_render sq)) <-> 0 <= i <= 8.
Proof.
  change (Click ∘ click <$> concat (Board_render sq))
    with [Click 0; Click 1; Click 2; Click 3; Click 4;
          Click 5; Click 6; Click 7; Click 8].
  rewrite !elem_of_cons, elem_of_nil. split.
  - intros H. repeat (destruct H as [H | H]; [injection H as ->; lia|]).
    contradiction.
  - intros H.
    assert (Hi : i = 0 \/ i = 1 \/ i = 2 \/ i = 3 \/ i = 4
                 \/ i = 5 \/ i = 6 \/ i = 7 \/ i = 8) by lia.
    repeat (destruct Hi as [-> | Hi]; [tauto|]). subst i. tauto.
Qed.

Lemma board_no_jump (sq : jsarray) (k : Z) :
  Jump k ∉ (Click ∘ click <$> concat (Board_render sq)).
Proof.
  intros H. apply list_elem_of_fmap in H as (b & Hb & _). discriminate Hb.
Qed.

Lemma moves_jumps (st : state) (k : Z) :
  Jump k ∈ (Jump ∘ target <$> moves st)
  <-> 0 <= k <= Z.of_nat (length (history st)) - 1.
Proof.
  rewrite moves_seq, <- list_fmap_compose. split.
  - intros H. apply list_elem_of_fmap in H as (n & Hn & Hin).
    apply elem_of_seq in Hin. cbn in Hn. injection Hn as ->. lia.
  - intros Hk. apply list_elem_of_fmap. exists (Z.to_nat k). split.
    + cbn. f_equal. lia.
    + apply elem_of_seq. lia.
Qed.

Lemma moves_no_click (st : state) (i : Z) :
  Click i ∉ (Jump ∘ target <$> moves st).
Proof.
  intros H. apply list_elem_of_fmap in H as (b & Hb & _). discriminate Hb.
Qed.

(** What a view rendered from [st] lets the user do. *)
Lemma render_events (st : state) (v : view) (ev : event) :
  render st = Some v ->
  ev ∈ events v
  <-> match ev with
      | Click i => 0 <= i <= 8
      | Jump k => 0 <= k <= Z.of_nat (length (history st)) - 1
      end.
Proof.
  unfold render. destruct (nthZ (history st) (stepNumber st)) as [cur|];
    [|discriminate].
  intros [= <-]. unfold events. cbn [view_board view_moves].
  rewrite elem_of_app. destruct ev as [i | k].
  - rewrite board_clicks. pose proof (moves_no_click st i). tauto.
  - rewrite moves_jumps. pose proof (board_no_jump (squares cur) k). tauto.
Qed.

(** X10. The states the rendered page can get into, by clicks on the squares it
    shows and on the jump buttons it lists, are exactly the reachable
    states; and in every such state each of these events is handled without
    throwing. *)
Theorem ui_reachable_iff (st : state) :
  (ui_reachable st <-> reachable st)
  /\ (ui_reachable st ->
      exists v, render st = Some v
                /\ forall ev, ev ∈ events v -> exists st', fire ev st = Some st').
Proof.
  assert (Hto : forall s, ui_reachable s -> reachable s).
  { induction 1 as [|s v ev s' _ IH Hrender Hev Hfire]; [constructor|].
    apply (render_events s v ev Hrender) in Hev.
    destruct ev as [i | k]; cbn in Hfire.
    - eapply reach_click; eassumption.
    - injection Hfire as <-. apply reach_jump; assumption. }
  assert (Hview : forall s, reachable s -> exists v, render s = Some v).
  { intros s Hs. destruct (inv_current s (reachable_inv s Hs)) as (cur & Hcur & _).
    unfold render. rewrite Hcur. eexists. reflexivity. }
  assert (Hfrom : forall s, reachable s -> ui_reachable s).
  { induction 1 as [|s i s' Hs IH Hi Hclick|s step Hs IH Hstep]; [constructor|..].
    - destruct (Hview s Hs) as [v Hv].
      apply (ui_step s v (Click i) s' IH Hv); [|exact Hclick].
      apply (render_events s v (Click i) Hv). exact Hi.
    - destruct (Hview s Hs) as [v Hv].
      apply (ui_step s v (Jump step) _ IH Hv); [|reflexivity].
      apply (render_events s v (Jump step) Hv). exact Hstep. }
  split; [split; [apply Hto | apply Hfrom]|].
  intros Hui. pose proof (Hto st Hui) as Hreach.
  destruct (Hview st Hreach) as [v Hv]. exists v. split; [exact Hv|].
  intros [i | k] _; cbn [fire]; [|eexists; reflexivity].
  destruct (inv_current st (reachable_inv st Hreach)) as (cur & Hcur & _).
  rewrite (handleClick_unfold i st cur Hcur).
  destruct (truthy (calculateWinner (squares cur))
            || truthy (arr_get (arr_slice (squares cur)) i)); eexists; reflexivity.
Qed.

(** X11. On the page of a reachable state, a click on a square is refused exactly
    when that square shows a mark or the status line announces a winner;
    otherwise the click moves on to the next step. *)
Theorem square_refused_iff (st : state) (v : view) (sb : square_button) :
  reachable st ->
  render st = Some v ->
  sb ∈ concat (view_board v) ->
  (handleClick (click sb) st = Some st
   <-> shown sb <> VNull
       \/ view_status v = Won "X" \/ view_status v = Won "O")
  /\ (handleClick (click sb) st <> Some st ->
      exists st', handleClick (click sb) st = Some st'
                  /\ stepNumber st' = stepNumber st + 1).
Proof.
  intros Hreach Hrender Hsb. pose proof (reachable_inv st Hreach) as I.
  destruct (inv_current st I) as (cur & Hcur & _ & Hok).
  unfold render in Hrender. rewrite Hcur in Hrender. injection Hrender as <-.
  cbn [view_board view_status] in *.
  assert (Hi : 0 <= click sb <= 8 /\ shown sb = arr_get (squares cur) (click sb)).
  { unfold Board_render in Hsb. cbn [concat app] in Hsb.
    rewrite !elem_of_cons, elem_of_nil in Hsb.
    repeat (destruct Hsb as [-> | Hsb]; [cbn; split; [lia | reflexivity]|]).
    contradiction. }
  destruct Hi as [Hi Hshown].
  rewrite (handleClick_cases _ st cur I Hi Hcur), Hshown.
  pose proof (board_ok_get_cell _ _ Hok Hi) as Hcell.
  pose proof (calculateWinner_cell _ Hok) as Hwin.
  assert (Hplayed : Some (played st cur (click sb)) <> Some st).
  { intros [= H]. apply (f_equal stepNumber) in H. cbn in H. lia. }
  destruct Hwin as [Hw | [Hw | Hw]]; rewrite Hw; cbn [truthy orb to_string].
  - destruct Hcell as [Hc | [Hc | Hc]]; rewrite Hc; cbn [truthy].
    + split.
      * split; [intros H; contradiction|].
        intros [H | [H | H]]; [congruence | |];
          exfalso; symmetry in H;
          destruct (xIsNext st); discriminate H.
      * intros _. eexists. split; reflexivity.
    + split; [split; [left; discriminate | reflexivity]|].
      intros H. contradiction.
    + split; [split; [left; discriminate | reflexivity]|].
      intros H. contradiction.
  - split; [split; [right; left; reflexivity | reflexivity]|].
    intros H. contradiction.
  - split; [split; [right; right; reflexivity | reflexivity]|].
    intros H. contradiction.
Qed.

Lemma square_refused_iff_two_moves :
  handleClick 1 two_moves = Some two_moves
  /\ exists st', handleClick 2 two_moves = Some st' /\ stepNumber st' = 3.
Proof.
  destruct (render two_moves) as [v|] eqn:Hv;
    [|vm_compute in Hv; discriminate Hv].
  pose (b := board [mX; mO; nul; nul; nul; nul; nul; nul; nul]).
  assert (Hboard : view_board v = Board_render b).
  { vm_compute in Hv. injection Hv as <-. reflexivity. }
  split.
  - apply (square_refused_iff two_moves v (renderSquare b 1)
             reachable_two_moves Hv).
    + rewrite Hboard. cbn. rewrite !elem_of_cons. tauto.
    + left. discriminate.
  - apply (square_refused_iff two_moves v (renderSquare b 2)
             reachable_two_moves Hv).
    + rewrite Hboard. cbn. rewrite !elem_of_cons. tauto.
    + intros H. vm_compute in H. discriminate H.
Defined.

(** ** The list of jump buttons *)

Lemma move_desc_inj (n m : nat) : move_desc n = move_desc m -> n = m.
Proof.
  destruct n as [|n], m as [|m]; cbn [move_desc]; intros H.
  - reflexivity.
  - discriminate H.
  - discriminate H.
  - apply (inj (String.app "Go to move #")) in H.
    apply (inj pretty) in H. exact H.
Qed.

(** X12. Whatever the state, the jump list has one button per snapshot; the
    button at position [n] has key [n] and jumps to [n], the first is
    labelled "Go to game start" and the others "Go to move #n" in decimal;
    no two buttons bear the same label. *)
Theorem moves_buttons (st : state) :
  length (moves st) = length (history st)
  /\ (forall (n : nat) (b : move_button),
         moves st !! n = Some b ->
         key b = n /\ target b = Z.of_nat n
         /\ desc b = (if decide (n = 0%nat) then "Go to game start"
                      else "Go to move #" +:+ pretty n))
  /\ NoDup (desc <$> moves st).
Proof.
  split; [apply length_imap|]. split.
  - intros n b Hb. unfold moves in Hb. rewrite list_lookup_imap in Hb.
    destruct (history st !! n); [|discriminate Hb].
    injection Hb as <-. cbn. destruct n; auto.
  - rewrite moves_seq, <- list_fmap_compose.
    apply NoDup_fmap_2_strong; [|apply NoDup_seq].
    intros n m _ _ H. cbn in H. apply move_desc_inj. exact H.
Qed.

(** ** Squares outside the board *)

Lemma calculateWinner_from_agree (ls : list (Z * Z * Z)) (sq sq' : jsarray) :
  Forall line_cells ls ->
  (forall p, 0 <= p <= 8 -> arr_get sq p = arr_get sq' p) ->
  calculateWinner_from ls sq = calculateWinner_from ls sq'.
Proof.
  intros Hls Hagree. induction Hls as [|[[a b] c] rest (Ha & Hb & Hc) _ IH].
  - reflexivity.
  - cbn [calculateWinner_from line_matches].
    rewrite (Hagree a Ha), (Hagree b Hb), (Hagree c Hc), IH. reflexivity.
Qed.

(** X13. [calculateWinner] looks at the squares 0..8 and at nothing else: two
    arrays that agree there have the same winner, whatever their length,
    their further elements and their properties. *)
Theorem calculateWinner_nine_squares (sq sq' : jsarray) :
  (forall p, 0 <= p <= 8 -> arr_get sq p = arr_get sq' p) ->
  calculateWinner sq = calculateWinner sq'.
Proof. apply calculateWinner_from_agree. apply lines_cells. Qed.

(** Three X at the indices 9, 10 and 11 and one at key -1 win nothing. *)
Lemma calculateWinner_nine_squares_extended :
  calculateWinner
    (arr_set (JSArray [nul; nul; nul; nul; nul; nul; nul; nul; nul;
                       mX; mX; mX] ∅) (-1) mX)
  = calculateWinner emptyBoard.
Proof.
  apply calculateWinner_nine_squares. intros p Hp.
  assert (Hc : p = 0 \/ p = 1 \/ p = 2 \/ p = 3 \/ p = 4
               \/ p = 5 \/ p = 6 \/ p = 7 \/ p = 8) by lia.
  repeat (destruct Hc as [-> | Hc]; [reflexivity|]). subst p. reflexivity.
Defined.

(** X14. A click outside the board passes the turn.  In a reachable state with
    no winner, a click at an index outside 0..8 is accepted although the
    page shows the same nine squares afterwards: there is still no winner
    and the status names the other player. *)
Theorem handleClick_outside_passes_turn (st : state) (i : Z) (cur : jsarray) :
  reachable st ->
  ~ (0 <= i <= 8) ->
  currentBoard st = Some cur ->
  calculateWinner cur = VNull ->
  exists st' new,
    handleClick i st = Some st'
    /\ currentBoard st' = Some new
    /\ Board_render new = Board_render cur
    /\ calculateWinner new = VNull
    /\ xIsNext st' = negb (xIsNext st)
    /\ status st' = Some (InProgress (if xIsNext st then "O" else "X")).
Proof.
  intros Hreach Hi Hcur Hwin. pose proof (reachable_inv st Hreach) as I.
  destruct (currentBoard_Some st cur Hcur) as (s & Hs & <-).
  assert (Hok : board_ok (squares s)).
  { destruct (inv_current st I) as (c & Hc & _ & Hok). congruence. }
  destruct (inv_step st I) as [H0 Hlt].
  set (new := arr_set (arr_slice (squares s)) i (nextMark st)).
  assert (Hagree : forall p, 0 <= p <= 8 -> arr_get new p = arr_get (squares s) p).
  { intros p Hp. unfold new. rewrite (board_ok_slice _ Hok).
    apply arr_get_set_other.
    - apply is_index_cell. exact Hp.
    - intros ->. contradiction.
    - rewrite (ok_length _ Hok). lia. }
  assert (Hnew : calculateWinner new = VNull).
  { rewrite <- Hwin. apply calculateWinner_from_agree; [apply lines_cells | exact Hagree]. }
  eexists. exists new.
  rewrite (handleClick_unfold i st s Hs), Hwin.
  rewrite (board_ok_slice _ Hok) at 1.
  rewrite (board_ok_get_outside _ i Hok Hi). cbn [truthy orb].
  split; [reflexivity|].
  assert (Hlk : nthZ (take (S (Z.to_nat (stepNumber st))) (history st)
                        ++ [Snapshot new]) (stepNumber st + 1)
                = Some (Snapshot new)).
  { rewrite nthZ_nat by lia. rewrite lookup_app_r by (rewrite length_take; lia).
    rewrite length_take.
    replace (Z.to_nat (stepNumber st + 1)
             - S (Z.to_nat (stepNumber st)) `min` length (history st))%nat
      with 0%nat by lia.
    reflexivity. }
  split; [unfold currentBoard; cbn [history stepNumber]; fold new;
          rewrite Hlk; reflexivity|].
  split.
  { unfold Board_render, renderSquare. rewrite !Hagree by lia. reflexivity. }
  split; [exact Hnew|]. split; [reflexivity|].
  unfold status. cbn [history stepNumber xIsNext]. fold new.
  rewrite Hlk. cbn [squares]. rewrite Hnew. cbn [truthy].
  destruct (xIsNext st); reflexivity.
Qed.

Lemma handleClick_outside_passes_turn_initial :
  exists st' new,
    handleClick 9 initial = Some st'
    /\ currentBoard st' = Some new
    /\ Board_render new = Board_render emptyBoard
    /\ calculateWinner new = VNull
    /\ xIsNext st' = negb (xIsNext initial)
    /\ status st' = Some (InProgress "O").
Proof.
  apply (handleClick_outside_passes_turn initial 9 emptyBoard);
    [constructor | lia | reflexivity | reflexivity].
Defined.

(** ** The earlier component *)

Lemma foldl_bind_None {A B : Type} (f : B -> A -> option A) (l : list B) :
  foldl (fun acc i => acc ≫= f i) None l = None.
Proof. induction l as [|x l IH]; [reflexivity | exact IH]. Qed.

Lemma linear_step (st : state) (i : Z) :
  stepNumber st = Z.of_nat (length (history st)) - 1 ->
  Linear.handleClick i (forget_step st) = forget_step <$> handleClick i st
  /\ Linear.status (forget_step st) = status st
  /\ (forall st', handleClick i st = Some st' ->
                  stepNumber st' = Z.of_nat (length (history st')) - 1).
Proof.
  intros Hlast. unfold Linear.handleClick, Linear.status, handleClick, status.
  cbn [forget_step Linear.history Linear.xIsNext].
  rewrite slice_to_past_end by lia. rewrite Hlast.
  destruct (nthZ (history st) (Z.of_nat (length (history st)) - 1)) as [cur|];
    [|split; [reflexivity|]; split; [reflexivity | discriminate]].
  split.
  { destruct (truthy (calculateWinner (arr_slice (squares cur)))
              || truthy (arr_get (arr_slice (squares cur)) i)); reflexivity. }
  split; [reflexivity|].
  intros st'.
  destruct (truthy (calculateWinner (arr_slice (squares cur)))
            || truthy (arr_get (arr_slice (squares cur)) i));
    intros [= <-]; [exact Hlast|].
  cbn [history stepNumber]. rewrite length_app. cbn [length]. lia.
Qed.

(** X15. As long as [stepNumber] is the last index the component with time
    travel does what the earlier one does: on the same history and turn flag
    a click gives the same history and flag, or throws alike, the status is
    the same, and [stepNumber] is the last index again afterwards. *)
Theorem linear_simulation (st : state) (i : Z) :
  stepNumber st = Z.of_nat (length (history st)) - 1 ->
  Linear.handleClick i (forget_step st) = forget_step <$> handleClick i st
  /\ Linear.status (forget_step st) = status st
  /\ (forall st', handleClick i st = Some st' ->
                  stepNumber st' = Z.of_nat (length (history st')) - 1).
Proof. apply linear_step. Qed.

Lemma linear_simulation_two_moves :
  Linear.handleClick 4 (forget_step two_moves)
    = forget_step <$> handleClick 4 two_moves
  /\ Linear.status (forget_step two_moves) = Some (InProgress "X").
Proof.
  destruct (linear_simulation two_moves 4 eq_refl) as (Hclick & Hstatus & _).
  split; [exact Hclick | exact Hstatus].
Defined.

Lemma play_linear_from (clicks : list Z) (st : state) :
  stepNumber st = Z.of_nat (length (history st)) - 1 ->
  Linear.play clicks (forget_step st) = forget_step <$> play clicks st
  /\ (Linear.play clicks (forget_step st) ≫= Linear.status)
     = (play clicks st ≫= status).
Proof.
  unfold Linear.play, play. revert st.
  induction clicks as [|i rest IH]; intros st Hlast.
  - cbn [foldl]. split; [reflexivity|].
    cbn [mbind option_bind]. apply (linear_step st 0 Hlast).
  - cbn [foldl mbind option_bind].
    destruct (linear_step st i Hlast) as (Hclick & _ & Hkeep).
    rewrite Hclick. destruct (handleClick i st) as [st'|].
    + cbn [fmap option_fmap option_map]. apply IH. apply Hkeep. reflexivity.
    + cbn [fmap option_fmap option_map]. rewrite !foldl_bind_None.
      split; reflexivity.
Qed.

(** X16. Without jumps the two components are the same game: whatever the
    clicks, made one after the other from the start, the earlier component
    ends with the history and turn flag the later one ends with, throws if
    and only if it throws, and shows the same status. *)
Theorem play_linear (clicks : list Z) :
  Linear.play clicks Linear.initial = forget_step <$> play clicks initial
  /\ (Linear.play clicks Linear.initial ≫= Linear.status)
     = (play clicks initial ≫= status).
Proof. apply (play_linear_from clicks initial). reflexivity. Qed.

Lemma play_linear_center :
  Linear.play [4; 4; 9] Linear.initial
    = forget_step <$> play [4; 4; 9] initial
  /\ (Linear.play [4; 4; 9] Linear.initial ≫= Linear.status)
     = Some (InProgress "X").
Proof.
  destruct (play_linear [4; 4; 9]) as [Hplay Hstatus].
  split; [exact Hplay|]. rewrite Hstatus. reflexivity.
Defined.

(** ** Witnesses of the unconditional statements *)

Lemma handleClick_throws_iff_jumped :
  handleClick 0 (jumpTo (-1) initial) = None
  /\ handleClick 0 (jumpTo (-2) (State (history two_moves) 2 true))
     <> None.
Proof.
  split.
  - apply (handleClick_throws_iff 0 (jumpTo (-1) initial)).
    right. left. reflexivity.
  - intros H. apply (handleClick_throws_iff 0) in H.
    cbn in H. destruct H as [H | [H | H]]; [discriminate H | lia | lia].
Defined.

Lemma ui_reachable_iff_won :
  ui_reachable won
  /\ exists v, render won = Some v
               /\ forall ev, ev ∈ events v -> exists st', fire ev won = Some st'.
Proof.
  destruct (ui_reachable_iff won) as [Hiff Hfire].
  assert (Hui : ui_reachable won) by (apply Hiff; exact reachable_won).
  split; [exact Hui | exact (Hfire Hui)].
Defined.

Lemma moves_buttons_two_moves :
  desc <$> moves two_moves
    = ["Go to game start"; "Go to move #1"; "Go to move #2"]
  /\ NoDup (desc <$> moves two_moves).
Proof.
  split; [reflexivity|]. apply (moves_buttons two_moves).
Defined.

(** ** Every snapshot is a board *)

(** X17. In a reachable state [stepNumber] indexes a snapshot, and every snapshot
    of the history is an array of exactly nine squares, each [null], ['X']
    or ['O'], without holes and without stray properties. *)
Theorem reachable_boards (st : state) :
  reachable st ->
  0 <= stepNumber st < Z.of_nat (length (history st))
  /\ forall (n : nat) (s : snapshot),
       history st !! n = Some s ->
       length (elems (squares s)) = 9%nat
       /\ props (squares s) = ∅
       /\ forall v, v ∈ elems (squares s) ->
                    v = VNull \/ v = VStr "X" \/ v = VStr "O".
Proof.
  intros Hreach. pose proof (reachable_inv st Hreach) as I.
  split; [apply (inv_step st I)|].
  intros n s Hs.
  destruct (Forall_lookup_1 _ _ _ _ (inv_boards st I) Hs) as [Hlen Hp Hcells].
  split; [exact Hlen|]. split; [exact Hp|].
  intros v Hv. exact (proj1 (Forall_forall _ _) Hcells v Hv).
Qed.

Lemma reachable_boards_won :
  0 <= stepNumber won < Z.of_nat (length (history won))
  /\ length (elems top_row) = 9%nat
  /\ props top_row = ∅.
Proof.
  destruct (reachable_boards won reachable_won) as [Hstep Hboards].
  split; [exact Hstep|].
  destruct (Hboards 5%nat (Snapshot top_row) eq_refl) as (Hlen & Hp & _).
  split; [exact Hlen | exact Hp].
Defined.
